(** * Timer microservice: tick engine, command surface, snapshot cache,
      connection registry and fan-out.

    Shallow embedding of
      - [internal/types]      (Timer, TimerRequest, WebSocketMessage),
      - [internal/repository] (the gorm-backed TimerRepository),
      - [internal/service]    (TimerService: commands, tick loop, restore),
      - [internal/websocket]  (Handler: registry and broadcasts),
      - [internal/handlers]   (WebSocketHandler, the older variant).

    The service and the handlers are sequential Go code over three
    collaborators (the SQL store, Redis, the live sockets).  The
    collaborators are modelled by one [World] record; every call to them
    appends an [Event] to a chronological trace, and whether a call fails is
    read from a fault table carried by the world. *)

From Stdlib Require Import ZArith String List Lia DecimalString.
From Stdlib Require DecimalN DecimalPos.
From stdpp Require Import base gmap strings list.

Open Scope Z_scope.

(** ** internal/types *)

Module Types.

(** Go's [int64]: a signed 64-bit integer, arithmetic wraps around. *)
Definition min_int64 : Z := - 2 ^ 63.
Definition max_int64 : Z := 2 ^ 63 - 1.
Definition is_int64 (z : Z) : Prop := min_int64 ≤ z ≤ max_int64.
Definition wrap64 (z : Z) : Z := (z + 2 ^ 63) mod 2 ^ 64 - 2 ^ 63.

(** [type Timer struct { ID uint; SessionID string; MaxTime int64;
    CurrentTime int64; IsPaused bool }] *)
Record Timer : Type := mkTimer {
  ID : N;
  SessionID : string;
  MaxTime : Z;
  CurrentTime : Z;
  IsPaused : bool
}.

Definition set_IsPaused (b : bool) (t : Timer) : Timer :=
  mkTimer (ID t) (SessionID t) (MaxTime t) (CurrentTime t) b.
Definition set_CurrentTime (c : Z) (t : Timer) : Timer :=
  mkTimer (ID t) (SessionID t) (MaxTime t) c (IsPaused t).
Definition set_MaxTime (m : Z) (t : Timer) : Timer :=
  mkTimer (ID t) (SessionID t) m (CurrentTime t) (IsPaused t).
Definition set_ID (i : N) (t : Timer) : Timer :=
  mkTimer i (SessionID t) (MaxTime t) (CurrentTime t) (IsPaused t).

(** [type TimerRequest struct { SessionID string; MaxTime int64 }] *)
Record TimerRequest : Type := mkTimerRequest {
  req_SessionID : string;
  req_MaxTime : Z
}.

(** [type MessageType string] with its six constants; any other text on
    the wire is an unknown type. *)
Inductive MessageType : Type :=
| TypeTimerUpdate
| TypeTimerCreate
| TypeTimerPause
| TypeTimerResume
| TypeTimerStop
| TypeTimerModify
| TypeUnknown (text : string).

(** JSON documents, by the shapes this program produces and decodes.
    [encoding/json] itself is a library: a document is represented by what
    it decodes to.  The numbers of a document are arbitrary integers: they
    come from the wire or from the cache.  [JMalformed] is any text that
    is not JSON. *)
Inductive Json : Type :=
| JTimer (t : Timer)                          (* json.Marshal(timer) *)
| JRequest (sessionId : string) (maxTime : Z) (* {"sessionId":..,"maxTime":..} *)
| JStopID (id : N)                            (* {"id": ..} *)
| JModify (id : N) (newMaxTime : Z)           (* {"id":..,"newMaxTime":..} *)
| JMalformed (raw : string).

(** [json.Marshal(timer)]: a struct of integers, a string and a bool
    always encodes, so the error branch after it is never taken. *)
Definition Marshal (t : Timer) : Json := JTimer t.

(** Whether a JSON number fits an [int64] field, and a [uint] field (64
    bits on the platforms the service is built for).  A number that does
    not fit is an [UnmarshalTypeError]: the field keeps its zero value,
    the other fields are still decoded, and the error is returned at the
    end. *)
Definition fits_int64 (z : Z) : bool := (min_int64 <=? z) && (z <=? max_int64).
Definition fits_uint (n : N) : bool := (n <? 2 ^ 64)%N.

(** [json.Unmarshal(data, &timer)] with [timer] a zero [types.Timer]:
    keys are matched to fields without regard to case, unknown keys are
    dropped, absent fields keep their zero value.  The only caller skips
    the key on an error, so only a clean decode is returned. *)
Definition Unmarshal_Timer (j : Json) : option Timer :=
  match j with
  | JTimer t =>
      if fits_uint (ID t) && fits_int64 (MaxTime t) && fits_int64 (CurrentTime t)
      then Some t else None
  | JRequest sid m =>
      if fits_int64 m then Some (mkTimer 0 sid m 0 false) else None
  | JStopID i | JModify i _ =>
      if fits_uint i then Some (mkTimer i "" 0 0 false) else None
  | JMalformed _ => None
  end.

(** [json.Unmarshal(payload, &req)] with [req] a zero [TimerRequest]:
    what [req] holds afterwards, and whether the call returned no
    error. *)
Definition Decode_TimerRequest (j : Json) : TimerRequest * bool :=
  match j with
  | JTimer t =>
      if fits_int64 (MaxTime t) then (mkTimerRequest (SessionID t) (MaxTime t), true)
      else (mkTimerRequest (SessionID t) 0, false)
  | JRequest sid m =>
      if fits_int64 m then (mkTimerRequest sid m, true)
      else (mkTimerRequest sid 0, false)
  | JStopID _ | JModify _ _ => (mkTimerRequest "" 0, true)
  | JMalformed _ => (mkTimerRequest "" 0, false)
  end.

(** The same where the caller checks the error before it reads [req]. *)
Definition Unmarshal_TimerRequest (j : Json) : option TimerRequest :=
  if (Decode_TimerRequest j).2 then Some (Decode_TimerRequest j).1 else None.

(** [json.Unmarshal(payload, &p)] with [p] a zero [struct{ ID uint }],
    the error dropped: [p] holds what could be decoded, and stays zero on
    input that is not JSON. *)
Definition Unmarshal_ID (j : Json) : N :=
  match j with
  | JTimer t => if fits_uint (ID t) then ID t else 0%N
  | JStopID i | JModify i _ => if fits_uint i then i else 0%N
  | JRequest _ _ | JMalformed _ => 0%N
  end.

(** The same for [struct{ ID uint; NewMaxTime int64 }]. *)
Definition Unmarshal_Modify (j : Json) : N * Z :=
  match j with
  | JModify i m => (Unmarshal_ID j, if fits_int64 m then m else 0)
  | _ => (Unmarshal_ID j, 0)
  end.

(** [type WebSocketMessage struct { Type MessageType; Payload json.RawMessage }] *)
Record WebSocketMessage : Type := mkMessage {
  Type_ : MessageType;
  Payload : Json
}.

(** [string(id)] for an integer [id]: the UTF-8 encoding of the code
    point [id], and of U+FFFD when [id] is not a valid code point. *)
Definition byte_ (n : N) : Ascii.ascii := Ascii.ascii_of_N n.
Definition replacement_char : string :=
  String (byte_ 239) (String (byte_ 191) (String (byte_ 189) EmptyString)).
Definition string_of_rune (r : N) : string :=
  (if r <? 128 then String (byte_ r) EmptyString
   else if r <? 2048 then
     String (byte_ (192 + r / 64)) (String (byte_ (128 + r mod 64)) EmptyString)
   else if (55296 <=? r) && (r <=? 57343) then replacement_char
   else if r <? 65536 then
     String (byte_ (224 + r / 4096))
       (String (byte_ (128 + (r / 64) mod 64))
          (String (byte_ (128 + r mod 64)) EmptyString))
   else if r <? 1114112 then
     String (byte_ (240 + r / 262144))
       (String (byte_ (128 + (r / 4096) mod 64))
          (String (byte_ (128 + (r / 64) mod 64))
             (String (byte_ (128 + r mod 64)) EmptyString)))
   else replacement_char)%N.

(** [fmt.Sprint(id)] for an unsigned integer: its decimal digits. *)
Definition Sprint (id : N) : string := NilZero.string_of_uint (N.to_uint id).

(** [strconv.ParseUint(s, 10, 64)]: a non-empty run of decimal digits
    whose value fits 64 bits; anything else is an error. *)
Definition ParseUint (s : string) : option N :=
  match NilZero.uint_of_string s with
  | Some d => let n := N.of_uint d in
              if (n <? 2 ^ 64)%N then Some n else None
  | None => None
  end.

End Types.
Export Types.

(** ** The collaborators *)

(** A live socket.  [conn_isGameMaster] is the role of the endpoint that
    accepted it ([HandleGameMasterWebSocket] passes [true],
    [HandleCustomerWebSocket] passes [false]); it is known to the goroutine
    serving the socket and is not stored in the registry. *)
Record Conn : Type := mkConn {
  conn_id : N;
  conn_isGameMaster : bool
}.

Inductive error : Type :=
| ErrRecordNotFound
| ErrDatabase
| ErrRedis
| ErrRedisNil
| ErrSocket.

(** A Go result pair [(value, error)] of which exactly one is set. *)
Inductive Result (A : Type) : Type :=
| Ok (a : A)
| Err (e : error).
Arguments Ok {A} a.
Arguments Err {A} e.

(** Rows of the timers table, keyed by primary key. *)
Record TimerRow : Type := mkRow {
  row_SessionID : string;
  row_MaxTime : Z;
  row_CurrentTime : Z;
  row_IsPaused : bool
}.

Definition row_of (t : Timer) : TimerRow :=
  mkRow (SessionID t) (MaxTime t) (CurrentTime t) (IsPaused t).
Definition timer_of (id : N) (r : TimerRow) : Timer :=
  mkTimer id (row_SessionID r) (row_MaxTime r) (row_CurrentTime r) (row_IsPaused r).

(** Which collaborator calls fail.  A call fails or not by its argument. *)
Record Faults : Type := mkFaults {
  createFails : Timer → bool;
  updateFails : Timer → bool;
  findFails : N → bool;
  deleteFails : N → bool;
  getActiveFails : bool;
  redisSetFails : string → bool;
  redisGetFails : string → bool;
  redisKeysFails : bool;
  writeFails : Conn → bool
}.

Definition no_faults : Faults :=
  mkFaults (λ _, false) (λ _, false) (λ _, false) (λ _, false) false
           (λ _, false) (λ _, false) false (λ _, false).

Inductive Level : Type := LvlInfo | LvlWarn | LvlError.

(** What the program does to the outside, in the order it does it. *)
Inductive Event : Type :=
| RepoCreate (t : Timer) (ok : bool)
| RepoUpdate (t : Timer) (ok : bool)
| RepoFindByID (id : N) (ok : bool)
| RepoDelete (id : N) (ok : bool)
| RepoGetActiveTimers (ok : bool)
| RedisSet (key : string) (value : Json) (ok : bool)
| RedisDel (key : string)
| RedisGet (key : string) (ok : bool)
| RedisKeys (pattern : string) (ok : bool)
| SocketWrite (c : Conn) (m : WebSocketMessage) (ok : bool)
| ConnClose (c : Conn)
| Log (lvl : Level) (msg : string).

(** A Go channel of [struct{}] that is only ever closed. *)
Inductive Chan : Type := ChanOpen | ChanClosed.

Record World : Type := mkWorld {
  rows : gmap N TimerRow;          (* the timers table *)
  nextID : N;                      (* its auto-increment counter *)
  cache : gmap string Json;        (* Redis *)
  connections : gmap string Conn;  (* Handler.connections *)
  stopChan : Chan;                 (* TimerService.stopChan *)
  faults : Faults;
  trace : list Event
}.

Definition with_rows (f : gmap N TimerRow → gmap N TimerRow) (w : World) : World :=
  mkWorld (f (rows w)) (nextID w) (cache w) (connections w) (stopChan w) (faults w) (trace w).
Definition with_nextID (n : N) (w : World) : World :=
  mkWorld (rows w) n (cache w) (connections w) (stopChan w) (faults w) (trace w).
Definition with_cache (f : gmap string Json → gmap string Json) (w : World) : World :=
  mkWorld (rows w) (nextID w) (f (cache w)) (connections w) (stopChan w) (faults w) (trace w).
Definition with_connections (f : gmap string Conn → gmap string Conn) (w : World) : World :=
  mkWorld (rows w) (nextID w) (cache w) (f (connections w)) (stopChan w) (faults w) (trace w).
Definition with_stopChan (c : Chan) (w : World) : World :=
  mkWorld (rows w) (nextID w) (cache w) (connections w) c (faults w) (trace w).
Definition emit (e : Event) (w : World) : World :=
  mkWorld (rows w) (nextID w) (cache w) (connections w) (stopChan w) (faults w)
          (trace w ++ [e]).

(** World-passing computations. *)
Definition M (A : Type) : Type := World → A * World.

Definition ret {A} (a : A) : M A := λ w, (a, w).
Definition bind {A B} (m : M A) (k : A → M B) : M B :=
  λ w, let '(a, w') := m w in k a w'.
Definition modify (f : World → World) : M unit := λ w, (tt, f w).
Definition ask {A} (f : World → A) : M A := λ w, (f w, w).

Notation "x <- c ;; k" := (bind c (λ x, k))
  (at level 100, c at next level, right associativity).
Notation "c ;;; k" := (bind c (λ _, k))
  (at level 100, right associativity).

(** [for _, x := range l { body }]; a [continue] is the body returning. *)
Fixpoint for_range {A} (l : list A) (body : A → M unit) : M unit :=
  match l with
  | [] => ret tt
  | x :: l' => body x ;;; for_range l' body
  end.

Definition logw (lvl : Level) (msg : string) : M unit := modify (emit (Log lvl msg)).

(** ** internal/repository: TimerRepository over gorm *)

Module Repository.

(** [r.db.Create(timer).Error]: inserts the row under the next
    auto-increment key and writes the key back into [timer.ID]. *)
Definition Create (timer : Timer) : M (Timer * option error) :=
  λ w,
    if createFails (faults w) timer then
      ((timer, Some ErrDatabase), emit (RepoCreate timer false) w)
    else
      let id := nextID w in
      let timer' := set_ID id timer in
      ((timer', None),
       emit (RepoCreate timer' true)
            (with_nextID (N.succ id) (with_rows (insert id (row_of timer')) w))).

(** [r.db.Save(timer).Error]: writes every column of the row whose
    primary key is [timer.ID], and inserts that row if the table has
    none.  The timers saved by the tick loop and by the commands were read
    from the table.  [Save] of a timer whose primary key is zero is an
    insert under a fresh key instead; this definition does not tell that
    case apart, and the statements about the table after a restore are
    made for timers that carry an id. *)
Definition Update (timer : Timer) : M (option error) :=
  λ w,
    if updateFails (faults w) timer then
      (Some ErrDatabase, emit (RepoUpdate timer false) w)
    else
      (None, emit (RepoUpdate timer true)
                  (with_rows (insert (ID timer) (row_of timer)) w)).

(** [r.db.First(&timer, id)]: the row, or a record-not-found error. *)
Definition FindByID (id : N) : M (Result Timer) :=
  λ w,
    if findFails (faults w) id then
      (Err ErrDatabase, emit (RepoFindByID id false) w)
    else
      match rows w !! id with
      | Some r => (Ok (timer_of id r), emit (RepoFindByID id true) w)
      | None => (Err ErrRecordNotFound, emit (RepoFindByID id false) w)
      end.

(** [r.db.Delete(&types.Timer{}, id).Error]: deleting a key that has no
    row is not an error. *)
Definition Delete (id : N) : M (option error) :=
  λ w,
    if deleteFails (faults w) id then
      (Some ErrDatabase, emit (RepoDelete id false) w)
    else
      (None, emit (RepoDelete id true) (with_rows (delete id) w)).

Definition all_timers (m : gmap N TimerRow) : list Timer :=
  (λ kr, timer_of kr.1 kr.2) <$> map_to_list m.

(** Modelled from the spec: [GetActiveTimers] is called by the tick loop
    and mocked in the service tests, but its implementation is not in the
    repository package at hand.  Per the spec it returns "all Timers the
    Durable Store reports as active (not deleted)", that is every row. *)
Definition GetActiveTimers : M (Result (list Timer)) :=
  λ w,
    if getActiveFails (faults w) then
      (Err ErrDatabase, emit (RepoGetActiveTimers false) w)
    else
      (Ok (all_timers (rows w)), emit (RepoGetActiveTimers true) w).

End Repository.

(** ** Redis, as the service uses it *)

Module Redis.

(** [redis.Set(ctx, key, value, 24*time.Hour).Err()]; the expiry is real
    time and is not modelled. *)
Definition Set_ (key : string) (value : Json) : M (option error) :=
  λ w,
    if redisSetFails (faults w) key then
      (Some ErrRedis, emit (RedisSet key value false) w)
    else
      (None, emit (RedisSet key value true) (with_cache (insert key value) w)).

(** [redis.Del(ctx, key)]; the service drops the result. *)
Definition Del (key : string) : M unit :=
  λ w, (tt, emit (RedisDel key) (with_cache (delete key) w)).

(** [redis.Get(ctx, key).Result()] *)
Definition Get (key : string) : M (Result Json) :=
  λ w,
    if redisGetFails (faults w) key then
      (Err ErrRedis, emit (RedisGet key false) w)
    else
      match cache w !! key with
      | Some v => (Ok v, emit (RedisGet key true) w)
      | None => (Err ErrRedisNil, emit (RedisGet key false) w)
      end.

(** [redis.Keys(ctx, "timer:*").Result()]: the keys that start with the
    text before the star. *)
Definition Keys (prefix : string) : M (Result (list string)) :=
  λ w,
    if redisKeysFails (faults w) then
      (Err ErrRedis, emit (RedisKeys prefix false) w)
    else
      (Ok (filter (λ k, String.prefix prefix k = true) (map_to_list (cache w)).*1),
       emit (RedisKeys prefix true) w).

End Redis.

(** ** internal/websocket: the Handler (registry and fan-out) *)

Module Websocket.

(** [type TimerServiceInterface interface { ... }] *)
Record TimerServiceInterface : Type := mkTimerService {
  CreateTimer : string → Z → M (Result Timer);
  PauseTimer : N → M (Result Timer);
  ResumeTimer : N → M (Result Timer);
  StopTimer : N → M (option error);
  ModifyTimer : N → Z → M (Result Timer)
}.

(** Modelled from the spec: the declaration of [HandlerInterface] is not
    in the websocket package at hand; the service calls one method on it,
    the Broadcaster contract [broadcastUpdate(timer)]. *)
Record HandlerInterface : Type := mkHandler {
  BroadcastTimerUpdate_ : Timer → M unit
}.

(** [conn.WriteJSON(message)] *)
Definition WriteJSON (conn : Conn) (message : WebSocketMessage) : M (option error) :=
  λ w,
    if writeFails (faults w) conn then
      (Some ErrSocket, emit (SocketWrite conn message false) w)
    else
      (None, emit (SocketWrite conn message true) w).

(** [for connSessionID, conn := range h.connections { ... }] under the
    read lock.  Go ranges over a map in no fixed order; the model takes
    the order of [map_to_list], and the theorems speak of membership. *)
Definition broadcastMessage (message : WebSocketMessage) (sessionID : string)
    (isGameMaster : bool) : M unit :=
  conns <- ask (λ w, map_to_list (connections w)) ;;
  for_range conns (λ '(connSessionID, conn),
    if isGameMaster || bool_decide (connSessionID = sessionID) then
      err <- WriteJSON conn message ;;
      match err with
      | Some _ => logw LvlError "Failed to send WebSocket message"
      | None => ret tt
      end
    else ret tt).

Definition broadcastTimerUpdate (timer : Timer) (isGameMaster : bool) : M unit :=
  broadcastMessage (mkMessage TypeTimerUpdate (Marshal timer)) (SessionID timer) isGameMaster.

Definition broadcastTimerStop (timerID : N) (isGameMaster : bool) : M unit :=
  broadcastMessage (mkMessage TypeTimerStop (JStopID timerID)) "" isGameMaster.

(** [func (h *Handler) BroadcastTimerUpdate(timer)]:
    "Broadcast to all, including game masters". *)
Definition BroadcastTimerUpdate (timer : Timer) : M unit :=
  broadcastTimerUpdate timer true.

(** [handleWebSocket], from a successful upgrade to the start of the read
    loop: [h.connections[sessionID] = conn] under the lock, then a log
    line. *)
Definition register (sessionID : string) (isGameMaster : bool) (conn : Conn) : M unit :=
  modify (with_connections (insert sessionID conn)) ;;;
  logw LvlInfo "New WebSocket connection established".

(** [closeConnection], deferred by [handleWebSocket]. *)
Definition closeConnection (sessionID : string) (conn : Conn) : M unit :=
  modify (with_connections (delete sessionID)) ;;;
  modify (emit (ConnClose conn)) ;;;
  logw LvlInfo "WebSocket connection closed".

Section Handler.
Variable service : TimerServiceInterface.

Definition handleTimerCreate (payload : Json) (isGameMaster : bool) : M unit :=
  match Unmarshal_TimerRequest payload with
  | None => logw LvlError "Failed to unmarshal timer create payload"
  | Some createPayload =>
      r <- CreateTimer service (req_SessionID createPayload) (req_MaxTime createPayload) ;;
      match r with
      | Err _ => logw LvlError "Failed to create timer"
      | Ok timer => broadcastTimerUpdate timer isGameMaster
      end
  end.

Definition handleTimerPause (payload : Json) (isGameMaster : bool) : M unit :=
  match Unmarshal_TimerRequest payload with
  | None => logw LvlError "Failed to unmarshal timer pause payload"
  | Some pausePayload =>
      match ParseUint (req_SessionID pausePayload) with
      | None => logw LvlError "Invalid timer ID"
      | Some id =>
          r <- PauseTimer service id ;;
          match r with
          | Err _ => logw LvlError "Failed to pause timer"
          | Ok timer => broadcastTimerUpdate timer isGameMaster
          end
      end
  end.

Definition handleTimerResume (payload : Json) (isGameMaster : bool) : M unit :=
  match Unmarshal_TimerRequest payload with
  | None => logw LvlError "Failed to unmarshal timer resume payload"
  | Some resumePayload =>
      match ParseUint (req_SessionID resumePayload) with
      | None => logw LvlError "Invalid timer ID"
      | Some id =>
          r <- ResumeTimer service id ;;
          match r with
          | Err _ => logw LvlError "Failed to resume timer"
          | Ok timer => broadcastTimerUpdate timer isGameMaster
          end
      end
  end.

Definition handleTimerStop (payload : Json) (isGameMaster : bool) : M unit :=
  match Unmarshal_TimerRequest payload with
  | None => logw LvlError "Failed to unmarshal timer stop payload"
  | Some stopPayload =>
      match ParseUint (req_SessionID stopPayload) with
      | None => logw LvlError "Invalid timer ID"
      | Some id =>
          err <- StopTimer service id ;;
          match err with
          | Some _ => logw LvlError "Failed to stop timer"
          | None => broadcastTimerStop id isGameMaster
          end
      end
  end.

Definition handleTimerModify (payload : Json) (isGameMaster : bool) : M unit :=
  match Unmarshal_TimerRequest payload with
  | None => logw LvlError "Failed to unmarshal timer modify payload"
  | Some modifyPayload =>
      match ParseUint (req_SessionID modifyPayload) with
      | None => logw LvlError "Invalid timer ID"
      | Some id =>
          r <- ModifyTimer service id (req_MaxTime modifyPayload) ;;
          match r with
          | Err _ => logw LvlError "Failed to modify timer"
          | Ok timer => broadcastTimerUpdate timer isGameMaster
          end
      end
  end.

Definition handleMessage (message : WebSocketMessage) (sessionID : string)
    (isGameMaster : bool) : M unit :=
  match Type_ message with
  | TypeTimerCreate => handleTimerCreate (Payload message) isGameMaster
  | TypeTimerPause => handleTimerPause (Payload message) isGameMaster
  | TypeTimerResume => handleTimerResume (Payload message) isGameMaster
  | TypeTimerStop => handleTimerStop (Payload message) isGameMaster
  | TypeTimerModify => handleTimerModify (Payload message) isGameMaster
  | _ => logw LvlWarn "Unknown message type received"
  end.

(** The read loop of [handleWebSocket]: [inbound] is what [ReadJSON]
    yields in turn; running out of it is the read error that breaks the
    loop. *)
Definition readLoop (inbound : list WebSocketMessage) (sessionID : string)
    (isGameMaster : bool) : M unit :=
  for_range inbound (λ wsMessage, handleMessage wsMessage sessionID isGameMaster).

(** [handleWebSocket]; [upgrade] is the result of [upgrader.Upgrade]. *)
Definition handleWebSocket (upgrade : Result Conn) (inbound : list WebSocketMessage)
    (sessionID : string) (isGameMaster : bool) : M unit :=
  match upgrade with
  | Err _ => logw LvlError "Failed to upgrade connection"
  | Ok conn =>
      register sessionID isGameMaster conn ;;;
      readLoop inbound sessionID isGameMaster ;;;
      closeConnection sessionID conn
  end.

End Handler.

End Websocket.

(** ** internal/service: TimerService with the tick loop *)

(** What a call that may panic comes to. *)
Inductive Outcome : Type :=
| Returns (w : World)
| Panics (msg : string).

(** The case a pass through [select] takes. *)
Inductive SelectCase : Type := CaseTicker | CaseStop.

Module Service.
Import Websocket.

Section TimerService.
Variable wsHandler : HandlerInterface.

(** [persistTimer]: the write path of the snapshot cache, key
    ["timer:" + timer.SessionID]. *)
Definition persistTimer (timer : Timer) : M unit :=
  let timerJSON := Marshal timer in
  err <- Redis.Set_ ("timer:" +:+ SessionID timer) timerJSON ;;
  match err with
  | Some _ => logw LvlError "Failed to persist timer to Redis"
  | None => ret tt
  end.

Definition broadcastTimerUpdate (timer : Timer) : M unit :=
  logw LvlInfo "Timer updated" ;;;
  let wsTimer :=
    mkTimer (ID timer) (SessionID timer) (MaxTime timer) (CurrentTime timer)
            (IsPaused timer) in
  BroadcastTimerUpdate_ wsHandler wsTimer.

(** The body of the loop in [updateTimers]; [timer] is the loop's own
    copy of the element. *)
Definition updateTimer (timer : Timer) : M unit :=
  if negb (IsPaused timer) && (0 <? CurrentTime timer) then
    let timer := set_CurrentTime (wrap64 (CurrentTime timer - 1)) timer in
    err <- Repository.Update timer ;;
    match err with
    | Some _ => logw LvlError "Failed to update timer"
    | None => broadcastTimerUpdate timer
    end
  else ret tt.

Definition updateTimers : M unit :=
  r <- Repository.GetActiveTimers ;;
  match r with
  | Err _ => logw LvlError "Failed to get active timers"
  | Ok timers => for_range timers updateTimer
  end.

(** [StartTimerUpdates]: [for { select { case <-ticker.C: ...; case
    <-s.stopChan: return } }].  [cases] is the case each pass takes;
    the result tells whether the function returned.  The stop case can
    be taken only once the channel is closed: before that the loop
    stays in [select]. *)
Fixpoint StartTimerUpdates (cases : list SelectCase) : M bool :=
  match cases with
  | [] => ret false
  | CaseTicker :: rest => updateTimers ;;; StartTimerUpdates rest
  | CaseStop :: _ =>
      c <- ask stopChan ;;
      match c with
      | ChanClosed => ret true
      | ChanOpen => ret false
      end
  end.

(** [StopTimerUpdates]: [close(s.stopChan)].  Closing a closed channel
    is a run-time panic. *)
Definition StopTimerUpdates (w : World) : Outcome :=
  match stopChan w with
  | ChanOpen => Returns (with_stopChan ChanClosed w)
  | ChanClosed => Panics "close of closed channel"
  end.

Definition CreateTimer (sessionID : string) (maxTime : Z) : M (Result Timer) :=
  let timer := mkTimer 0 sessionID maxTime maxTime false in
  r <- Repository.Create timer ;;
  match r with
  | (_, Some err) =>
      logw LvlError "Failed to create timer" ;;;
      ret (Err err)
  | (timer, None) =>
      persistTimer timer ;;;
      ret (Ok timer)
  end.

Definition PauseTimer (id : N) : M (Result Timer) :=
  r <- Repository.FindByID id ;;
  match r with
  | Err err =>
      logw LvlError "Failed to find timer" ;;;
      ret (Err err)
  | Ok timer =>
      let timer := set_IsPaused true timer in
      err <- Repository.Update timer ;;
      match err with
      | Some err =>
          logw LvlError "Failed to pause timer" ;;;
          ret (Err err)
      | None =>
          persistTimer timer ;;;
          ret (Ok timer)
      end
  end.

Definition ResumeTimer (id : N) : M (Result Timer) :=
  r <- Repository.FindByID id ;;
  match r with
  | Err err =>
      logw LvlError "Failed to find timer" ;;;
      ret (Err err)
  | Ok timer =>
      let timer := set_IsPaused false timer in
      err <- Repository.Update timer ;;
      match err with
      | Some err =>
          logw LvlError "Failed to resume timer" ;;;
          ret (Err err)
      | None =>
          persistTimer timer ;;;
          ret (Ok timer)
      end
  end.

(** [StopTimer]: deletes the row, then
    [s.redis.Del(ctx, "timer:"+fmt.Sprint(id))]. *)
Definition StopTimer (id : N) : M (option error) :=
  err <- Repository.Delete id ;;
  match err with
  | Some err =>
      logw LvlError "Failed to stop timer" ;;;
      ret (Some err)
  | None =>
      Redis.Del ("timer:" +:+ Sprint id) ;;;
      ret None
  end.

Definition ModifyTimer (id : N) (newMaxTime : Z) : M (Result Timer) :=
  r <- Repository.FindByID id ;;
  match r with
  | Err err =>
      logw LvlError "Failed to find timer" ;;;
      ret (Err err)
  | Ok timer =>
      let timer := set_CurrentTime newMaxTime (set_MaxTime newMaxTime timer) in
      err <- Repository.Update timer ;;
      match err with
      | Some err =>
          logw LvlError "Failed to modify timer" ;;;
          ret (Err err)
      | None =>
          persistTimer timer ;;;
          ret (Ok timer)
      end
  end.

(** The body of the loop in [RestoreTimers]; each failure is logged and
    the loop goes on to the next key. *)
Definition restoreKey (key : string) : M unit :=
  r <- Redis.Get key ;;
  match r with
  | Err _ => logw LvlError "Failed to get timer from Redis"
  | Ok timerJSON =>
      match Unmarshal_Timer timerJSON with
      | None => logw LvlError "Failed to unmarshal timer"
      | Some timer =>
          err <- Repository.Update timer ;;
          match err with
          | Some _ => logw LvlError "Failed to restore timer"
          | None => ret tt
          end
      end
  end.

Definition RestoreTimers : M (option error) :=
  r <- Redis.Keys "timer:" ;;
  match r with
  | Err err => ret (Some err)
  | Ok keys =>
      for_range keys restoreKey ;;;
      ret None
  end.

(** [NewTimerService(...)] as a [TimerServiceInterface] value. *)
Definition NewTimerService : TimerServiceInterface :=
  mkTimerService CreateTimer PauseTimer ResumeTimer StopTimer ModifyTimer.

End TimerService.

End Service.

(** ** internal/service/timer.go: the service without the tick loop

    [CreateTimer], [PauseTimer], [ResumeTimer], [ModifyTimer],
    [persistTimer] and [RestoreTimers] are the same text as in [Service]
    and do not use the handler; [StopTimer] builds its cache key
    differently. *)

Module ServiceTimerGo.

Definition CreateTimer := Service.CreateTimer.
Definition PauseTimer := Service.PauseTimer.
Definition ResumeTimer := Service.ResumeTimer.
Definition ModifyTimer := Service.ModifyTimer.
Definition persistTimer := Service.persistTimer.
Definition RestoreTimers := Service.RestoreTimers.

(** [StopTimer]: deletes the row, then
    [s.redis.Del(ctx, "timer:"+string(id))]. *)
Definition StopTimer (id : N) : M (option error) :=
  err <- Repository.Delete id ;;
  match err with
  | Some err =>
      logw LvlError "Failed to stop timer" ;;;
      ret (Some err)
  | None =>
      Redis.Del ("timer:" +:+ string_of_rune id) ;;;
      ret None
  end.

Definition NewTimerService : Websocket.TimerServiceInterface :=
  Websocket.mkTimerService CreateTimer PauseTimer ResumeTimer StopTimer ModifyTimer.

End ServiceTimerGo.

(** ** internal/handlers: WebSocketHandler and TimerHandler *)

Module Handlers.
Import Websocket.

(** [handleConnection], up to the read loop. *)
Definition register (conn : Conn) (sessionID : string) (isGameMaster : bool) : M unit :=
  modify (with_connections (insert sessionID conn)).

(** The function deferred by [handleConnection]. *)
Definition unregister (conn : Conn) (sessionID : string) : M unit :=
  modify (with_connections (delete sessionID)) ;;;
  modify (emit (ConnClose conn)).

Definition broadcastTimerUpdate (timer : Timer) (isGameMaster : bool) : M unit :=
  let message := mkMessage TypeTimerUpdate (Marshal timer) in
  conns <- ask (λ w, map_to_list (connections w)) ;;
  for_range conns (λ '(sessionID, conn),
    if isGameMaster || bool_decide (sessionID = SessionID timer) then
      err <- WriteJSON conn message ;;
      match err with
      | Some _ => logw LvlError "Failed to send WebSocket message"
      | None => ret tt
      end
    else ret tt).

Definition broadcastTimerStop (timerID : N) (isGameMaster : bool) : M unit :=
  let message := mkMessage TypeTimerStop (JStopID timerID) in
  conns <- ask (λ w, map_to_list (connections w)) ;;
  for_range conns (λ '(_, conn),
    if isGameMaster then
      err <- WriteJSON conn message ;;
      match err with
      | Some _ => logw LvlError "Failed to send WebSocket message"
      | None => ret tt
      end
    else ret tt).

Section WithService.
Variable service : TimerServiceInterface.

Definition handleMessage (message : WebSocketMessage) (sessionID : string)
    (isGameMaster : bool) : M unit :=
  match Type_ message with
  | TypeTimerCreate =>
      let createPayload := (Decode_TimerRequest (Payload message)).1 in
      r <- CreateTimer service (req_SessionID createPayload) (req_MaxTime createPayload) ;;
      match r with
      | Err _ => logw LvlError "Failed to create timer"
      | Ok timer => broadcastTimerUpdate timer isGameMaster
      end
  | TypeTimerPause =>
      r <- PauseTimer service (Unmarshal_ID (Payload message)) ;;
      match r with
      | Err _ => logw LvlError "Failed to pause timer"
      | Ok timer => broadcastTimerUpdate timer isGameMaster
      end
  | TypeTimerResume =>
      r <- ResumeTimer service (Unmarshal_ID (Payload message)) ;;
      match r with
      | Err _ => logw LvlError "Failed to resume timer"
      | Ok timer => broadcastTimerUpdate timer isGameMaster
      end
  | TypeTimerStop =>
      let id := Unmarshal_ID (Payload message) in
      err <- StopTimer service id ;;
      match err with
      | Some _ => logw LvlError "Failed to stop timer"
      | None => broadcastTimerStop id isGameMaster
      end
  | TypeTimerModify =>
      let modifyPayload := Unmarshal_Modify (Payload message) in
      r <- ModifyTimer service modifyPayload.1 modifyPayload.2 ;;
      match r with
      | Err _ => logw LvlError "Failed to modify timer"
      | Ok timer => broadcastTimerUpdate timer isGameMaster
      end
  | _ => ret tt
  end.

(** [handleConnection]: registers, serves the inbound frames and, on the
    read error that ends them, logs it and runs the deferred clean-up.
    [inbound] is what [ReadMessage] yields in turn; [None] is a frame that
    is not a JSON envelope. *)
Definition handleConnection (conn : Conn) (inbound : list (option WebSocketMessage))
    (sessionID : string) (isGameMaster : bool) : M unit :=
  register conn sessionID isGameMaster ;;;
  for_range inbound (λ frame,
    match frame with
    | None => logw LvlError "Failed to unmarshal WebSocket message"
    | Some wsMessage => handleMessage wsMessage sessionID isGameMaster
    end) ;;;
  logw LvlError "WebSocket read error" ;;;
  unregister conn sessionID.

End WithService.

(** An HTTP response: status code and body. *)
Inductive Body : Type :=
| BodyText (msg : string)
| BodyTimer (t : Timer)
| BodyMessage (msg : string).

(** [type TimerHandler struct { service; logger }] *)
Module TimerHandler.
Section WithService.
Variable service : TimerServiceInterface.

(** [TimerHandler.CreateTimer]: POST /timer.  [body] is the request
    body. *)
Definition CreateTimer (body : Json) : M (Z * Body) :=
  match Unmarshal_TimerRequest body with
  | None =>
      logw LvlError "Failed to decode request body" ;;;
      ret (400, BodyText "Invalid request body")
  | Some req =>
      r <- Websocket.CreateTimer service (req_SessionID req) (req_MaxTime req) ;;
      match r with
      | Err _ =>
          logw LvlError "Failed to create timer" ;;;
          ret (500, BodyText "Failed to create timer")
      | Ok timer => ret (201, BodyTimer timer)
      end
  end.

(** [TimerHandler.StopTimer]: PUT /timer/{id}/stop.  [idParam] is the
    path parameter; it is parsed with [strconv.ParseUint(_, 10, 32)]. *)
Definition StopTimer (idParam : string) : M (Z * Body) :=
  match ParseUint idParam with
  | Some id =>
      if (id <? 2 ^ 32)%N then
        err <- Websocket.StopTimer service id ;;
        match err with
        | Some _ =>
            logw LvlError "Failed to stop timer" ;;;
            ret (500, BodyText "Failed to stop timer")
        | None => ret (200, BodyMessage "Timer stopped and deleted")
        end
      else
        logw LvlError "Invalid timer ID" ;;;
        ret (400, BodyText "Invalid timer ID")
  | None =>
      logw LvlError "Invalid timer ID" ;;;
      ret (400, BodyText "Invalid timer ID")
  end.

(** [strconv.ParseUint(chi.URLParam(r, "id"), 10, 32)], the first step of
    every endpoint that takes an id. *)
Definition ParseUint32 (idParam : string) : option N :=
  match ParseUint idParam with
  | Some id => if (id <? 2 ^ 32)%N then Some id else None
  | None => None
  end.

(** [TimerHandler.PauseTimer]: PUT /timer/{id}/pause. *)
Definition PauseTimer (idParam : string) : M (Z * Body) :=
  match ParseUint32 idParam with
  | None =>
      logw LvlError "Invalid timer ID" ;;;
      ret (400, BodyText "Invalid timer ID")
  | Some id =>
      r <- Websocket.PauseTimer service id ;;
      match r with
      | Err _ =>
          logw LvlError "Failed to pause timer" ;;;
          ret (500, BodyText "Failed to pause timer")
      | Ok timer => ret (200, BodyTimer timer)
      end
  end.

(** [TimerHandler.ResumeTimer]: PUT /timer/{id}/resume. *)
Definition ResumeTimer (idParam : string) : M (Z * Body) :=
  match ParseUint32 idParam with
  | None =>
      logw LvlError "Invalid timer ID" ;;;
      ret (400, BodyText "Invalid timer ID")
  | Some id =>
      r <- Websocket.ResumeTimer service id ;;
      match r with
      | Err _ =>
          logw LvlError "Failed to resume timer" ;;;
          ret (500, BodyText "Failed to resume timer")
      | Ok timer => ret (200, BodyTimer timer)
      end
  end.

(** [TimerHandler.ModifyTimer]: PUT /timer/{id}/modify; the id is parsed
    before the body is decoded. *)
Definition ModifyTimer (idParam : string) (body : Json) : M (Z * Body) :=
  match ParseUint32 idParam with
  | None =>
      logw LvlError "Invalid timer ID" ;;;
      ret (400, BodyText "Invalid timer ID")
  | Some id =>
      match Unmarshal_TimerRequest body with
      | None =>
          logw LvlError "Failed to decode request body" ;;;
          ret (400, BodyText "Invalid request body")
      | Some req =>
          r <- Websocket.ModifyTimer service id (req_MaxTime req) ;;
          match r with
          | Err _ =>
              logw LvlError "Failed to modify timer" ;;;
              ret (500, BodyText "Failed to modify timer")
          | Ok timer => ret (200, BodyTimer timer)
          end
      end
  end.

End WithService.
End TimerHandler.

End Handlers.

(** ** cmd/api/main.go: how the parts are wired *)

Module Main.

(** [wsHandler := websocket.NewHandler(nil, sugar)] *)
Definition wsHandler : Websocket.HandlerInterface :=
  Websocket.mkHandler Websocket.BroadcastTimerUpdate.

(** [timerService := service.NewTimerService(repo, sugar, redisClient, wsHandler)];
    [wsHandler.SetService(timerService)] *)
Definition timerService : Websocket.TimerServiceInterface :=
  Service.NewTimerService.

Definition updateTimers : M unit := Service.updateTimers wsHandler.
Definition StartTimerUpdates := Service.StartTimerUpdates wsHandler.
Definition StopTimerUpdates := Service.StopTimerUpdates.
Definition RestoreTimers : M (option error) := Service.RestoreTimers.

(** What the process is asked to do, one request at a time. *)
Inductive Command : Type :=
| Create (sessionID : string) (maxTime : Z)
| Pause (id : N)
| Resume (id : N)
| Modify (id : N) (newMaxTime : Z)
| Stop (id : N)
| Tick.

Definition exec (c : Command) : M unit :=
  match c with
  | Create sessionID maxTime => Websocket.CreateTimer timerService sessionID maxTime ;;; ret tt
  | Pause id => Websocket.PauseTimer timerService id ;;; ret tt
  | Resume id => Websocket.ResumeTimer timerService id ;;; ret tt
  | Modify id newMaxTime => Websocket.ModifyTimer timerService id newMaxTime ;;; ret tt
  | Stop id => Websocket.StopTimer timerService id ;;; ret tt
  | Tick => updateTimers
  end.

Definition run (cs : list Command) : M unit := for_range cs exec.

(** A fresh process: empty table, empty cache, no sockets, open stop
    channel. *)
Definition init (f : Faults) : World :=
  mkWorld ∅ 1%N ∅ ∅ ChanOpen f [].

End Main.


(** * Specification vocabulary *)

(** From [w] to [w'] nothing changed but the trace, which grew. *)
Definition trace_only (w w' : World) : Prop :=
  rows w' = rows w ∧ nextID w' = nextID w ∧ cache w' = cache w ∧
  connections w' = connections w ∧ stopChan w' = stopChan w ∧
  faults w' = faults w ∧ trace w `prefix_of` trace w'.

(** From [w] to [w'] the store and the trace may have changed; the cache,
    the registry, the stop channel and the fault table have not. *)
Definition store_only (w w' : World) : Prop :=
  cache w' = cache w ∧ connections w' = connections w ∧
  stopChan w' = stopChan w ∧ faults w' = faults w ∧
  trace w `prefix_of` trace w'.

(** What every command and tick leaves alone. *)
Definition steady (w w' : World) : Prop :=
  connections w' = connections w ∧ stopChan w' = stopChan w ∧
  faults w' = faults w ∧ trace w `prefix_of` trace w'.

(** The data-model invariant of a row, [0 ≤ currentTime ≤ maxTime], and
    that its two counters are [int64] values. *)
Definition row_ok (r : TimerRow) : Prop :=
  0 ≤ row_CurrentTime r ≤ row_MaxTime r ∧ is_int64 (row_MaxTime r).

Definition store_ok (w : World) : Prop :=
  ∀ id r, rows w !! id = Some r → row_ok r.

(** The input constraints of the command surface: [maxTime ≥ 0] for create
    and modify ([maxTime] being an [int64]). *)
Definition pre (c : Main.Command) : Prop :=
  match c with
  | Main.Create _ maxTime => 0 ≤ maxTime ∧ is_int64 maxTime
  | Main.Modify _ newMaxTime => 0 ≤ newMaxTime ∧ is_int64 newMaxTime
  | _ => True
  end.

(** The keys that were fetched from Redis and the timers that were handed
    to [repo.Update] (with whether the store took them), in order. *)
Definition fetched (tr : list Event) : list string :=
  omap (λ e, match e with RedisGet key _ => Some key | _ => None end) tr.

Definition updates (tr : list Event) : list (Timer * bool) :=
  omap (λ e, match e with RepoUpdate t ok => Some (t, ok) | _ => None end) tr.

(** The two outbound messages. *)
Definition update_of (t : Timer) : WebSocketMessage := mkMessage TypeTimerUpdate (JTimer t).
Definition stop_of (id : N) : WebSocketMessage := mkMessage TypeTimerStop (JStopID id).

(** The socket writes, in order: who was written to and what. *)
Definition writes (tr : list Event) : list (Conn * WebSocketMessage) :=
  omap (λ e, match e with SocketWrite c m _ => Some (c, m) | _ => None end) tr.

(** The sockets that were closed. *)
Definition closed (tr : list Event) : list Conn :=
  omap (λ e, match e with ConnClose c => Some c | _ => None end) tr.

(** The cache keys written and deleted. *)
Definition cache_writes (tr : list Event) : list string :=
  omap (λ e, match e with RedisSet key _ _ => Some key | _ => None end) tr.

Definition cache_deletes (tr : list Event) : list string :=
  omap (λ e, match e with RedisDel key => Some key | _ => None end) tr.

(** The timer a cache key restores to: its value must be fetched and must
    decode. *)
Definition snapshot (w : World) (key : string) : option Timer :=
  if redisGetFails (faults w) key then None
  else cache w !! key ≫= Unmarshal_Timer.

(** The table after the store was asked to write [t]. *)
Definition written (f : Faults) (m : gmap N TimerRow) (t : Timer) : gmap N TimerRow :=
  if updateFails f t then m else <[ID t := row_of t]> m.

(** [n] ticks in a row. *)
Definition ticks (n : nat) : M unit := Main.run (replicate n Main.Tick).

(** A row that a tick passes over: paused, or with nothing left. *)
Definition idle (r : TimerRow) : Prop :=
  row_IsPaused r = true ∨ row_CurrentTime r ≤ 0.

(** A row [n] seconds later: its counter has gone down by [n], not below
    zero. *)
Definition countdown (n : nat) (r : TimerRow) : TimerRow :=
  mkRow (row_SessionID r) (row_MaxTime r)
        (Z.max 0 (row_CurrentTime r - Z.of_nat n)) (row_IsPaused r).

(** The store answers every listing, lookup and write. *)
Definition reliable_store (f : Faults) : Prop :=
  getActiveFails f = false ∧ (∀ t, updateFails f t = false) ∧
  (∀ id, findFails f id = false).

(** What one tick sends for the listed timer [t]: its decremented state to
    every registered socket, if it was running and the store took the
    write. *)
Definition tick_broadcasts (f : Faults) (conns : list (string * Conn)) (t : Timer)
    : list (Conn * WebSocketMessage) :=
  let t' := set_CurrentTime (wrap64 (CurrentTime t - 1)) t in
  if negb (IsPaused t) && (0 <? CurrentTime t) && negb (updateFails f t')
  then (λ kc, (kc.2, update_of t')) <$> conns
  else [].

(** The four commands that hand back a timer, as the wired service runs
    them. *)
Inductive TimerCall : Type :=
| CallCreate (sessionID : string) (maxTime : Z)
| CallPause (id : N)
| CallResume (id : N)
| CallModify (id : N) (newMaxTime : Z).

Definition invoke (c : TimerCall) : M (Result Timer) :=
  match c with
  | CallCreate sessionID maxTime => Websocket.CreateTimer Main.timerService sessionID maxTime
  | CallPause id => Websocket.PauseTimer Main.timerService id
  | CallResume id => Websocket.ResumeTimer Main.timerService id
  | CallModify id newMaxTime => Websocket.ModifyTimer Main.timerService id newMaxTime
  end.

(** The timer a command is about, when it names one. *)
Definition target (c : TimerCall) : option N :=
  match c with
  | CallCreate _ _ => None
  | CallPause id | CallResume id | CallModify id _ => Some id
  end.

(** From [w] to [w'] no socket was registered, removed, written to or
    closed. *)
Definition sockets_untouched (w w' : World) : Prop :=
  connections w' = connections w ∧ writes (trace w') = writes (trace w) ∧
  closed (trace w') = closed (trace w).

(** From [w] to [w'] no socket was registered, removed or closed. *)
Definition registry_kept (w w' : World) : Prop :=
  connections w' = connections w ∧ closed (trace w') = closed (trace w).

(** A service none of whose commands touches a socket. *)
Definition quiet_service (s : Websocket.TimerServiceInterface) : Prop :=
  (∀ sessionID maxTime w, sockets_untouched w (Websocket.CreateTimer s sessionID maxTime w).2) ∧
  (∀ id w, sockets_untouched w (Websocket.PauseTimer s id w).2) ∧
  (∀ id w, sockets_untouched w (Websocket.ResumeTimer s id w).2) ∧
  (∀ id w, sockets_untouched w (Websocket.StopTimer s id w).2) ∧
  (∀ id newMaxTime w, sockets_untouched w (Websocket.ModifyTimer s id newMaxTime w).2).

(** The inbound messages the push channel drops: a type that is not a
    command, a payload that does not decode, and, for the commands that
    name a timer, a payload whose [sessionId] is not the decimal text of a
    64-bit number. *)
Definition rejects (m : WebSocketMessage) : bool :=
  match Type_ m with
  | TypeTimerUpdate | TypeUnknown _ => true
  | TypeTimerCreate =>
      match Unmarshal_TimerRequest (Payload m) with
      | None => true
      | Some _ => false
      end
  | TypeTimerPause | TypeTimerResume | TypeTimerStop | TypeTimerModify =>
      match Unmarshal_TimerRequest (Payload m) with
      | None => true
      | Some req =>
          match ParseUint (req_SessionID req) with
          | None => true
          | Some _ => false
          end
      end
  end.

(** The message types that name a timer. *)
Definition names_timer (ty : MessageType) : bool :=
  match ty with
  | TypeTimerPause | TypeTimerResume | TypeTimerStop | TypeTimerModify => true
  | _ => false
  end.

(** The socket writes that went through. *)
Definition delivered (tr : list Event) : list (Conn * WebSocketMessage) :=
  omap (λ e, match e with SocketWrite c m true => Some (c, m) | _ => None end) tr.

(** The log lines of a level. *)
Definition logged (lvl : Level) (tr : list Event) : list string :=
  omap (λ e, match e with
             | Log LvlError msg => match lvl with LvlError => Some msg | _ => None end
             | Log LvlWarn msg => match lvl with LvlWarn => Some msg | _ => None end
             | Log LvlInfo msg => match lvl with LvlInfo => Some msg | _ => None end
             | _ => None
             end) tr.

(** The slots a broadcast for [sessionID] with the caller's flag
    [isGameMaster] selects, in registry order. *)
Definition selected (sessionID : string) (isGameMaster : bool) (w : World)
    : list (string * Conn) :=
  filter (λ kc, isGameMaster || bool_decide (kc.1 = sessionID) = true)
         (map_to_list (connections w)).

(** From [w] to [w'] only the table was written: the cache was neither
    written nor deleted from, and no socket was touched. *)
Definition table_only (w w' : World) : Prop :=
  store_only w w' ∧ sockets_untouched w w' ∧
  cache_writes (trace w') = cache_writes (trace w) ∧
  cache_deletes (trace w') = cache_deletes (trace w).

(** Concrete worlds for the examples. *)
Module Examples.

Definition alice : Conn := mkConn 1 false.
Definition bob : Conn := mkConn 2 false.
Definition master : Conn := mkConn 3 true.

Definition t1 : Timer := mkTimer 1 "s1" 60 30 false.

Definition table : gmap N TimerRow :=
  {[ 1%N := row_of t1; 2%N := mkRow "s2" 10 0 false; 3%N := mkRow "s3" 10 5 true ]}.

Definition sockets : gmap string Conn :=
  {[ "s1" := alice; "s2" := bob; "gm" := master ]}.

Definition world : World := mkWorld table 4 ∅ sockets ChanOpen no_faults [].

(** A restart: the store refuses timer 3, Redis fails on one key, one
    value is not JSON. *)
Definition faulty : Faults :=
  mkFaults (λ _, false) (λ t, (ID t =? 3)%N) (λ _, false) (λ _, false) false
           (λ _, false) (λ k, String.eqb k "timer:x") false (λ _, false).

Definition snapshots : gmap string Json :=
  {[ "timer:s1" := JTimer (mkTimer 1 "s1" 60 42 true);
     "timer:bad" := JMalformed "{";
     "timer:s3" := JTimer (mkTimer 3 "s3" 10 7 false);
     "timer:x" := JTimer (mkTimer 1 "x" 1 1 false);
     "timer:s2" := JTimer (mkTimer 2 "s2" 10 9 false);
     "unrelated" := JMalformed "hello" ]}.

Definition restart : World := mkWorld table 4 snapshots ∅ ChanOpen faulty [].

(** A second socket of the customer of session [s1]. *)
Definition alice2 : Conn := mkConn 4 false.

(** The inbound message [{"type":"TIMER_STOP","payload":{"sessionId":"1"}}]
    of the handler tests. *)
Definition stop_request : WebSocketMessage := mkMessage TypeTimerStop (JRequest "1" 0).

(** A process in which timer 1 of session [s1] was just created. *)
Definition created : World := (Service.CreateTimer "s1" 60 (Main.init no_faults)).2.

(** The set-up of [TestBroadcastTimerUpdate]: two sockets accepted by
    [HandleGameMasterWebSocket] outside the router, so both under the empty
    session identifier, and the timer that is broadcast. *)
Definition ws1 : Conn := mkConn 7 true.
Definition ws2 : Conn := mkConn 8 true.
Definition testTimer : Timer := mkTimer 1 "test-session" 60 30 false.
Definition one_socket : World :=
  (Websocket.register "" true ws1 (Main.init no_faults)).2.
Definition two_sockets : World :=
  (Websocket.register "" true ws2 one_socket).2.

(** A process whose stop channel was closed by a first [StopTimerUpdates]. *)
Definition stopped : World := with_stopChan ChanClosed (Main.init no_faults).

(** A session of commands against a fresh process. *)
Definition session : list Main.Command :=
  [Main.Create "s1" 2; Main.Tick; Main.Pause 1; Main.Tick; Main.Resume 1;
   Main.Tick; Main.Tick; Main.Modify 1 5; Main.Tick].

End Examples.

(** * Properties *)

(** ** Frames *)

#[local] Instance trace_only_preorder : PreOrder trace_only.
Proof.
  split.
  - intros w. by repeat split.
  - intros w1 w2 w3 (?&?&?&?&?&?&?) (?&?&?&?&?&?&?).
    repeat split; try congruence. by etrans.
Qed.

#[local] Instance store_only_preorder : PreOrder store_only.
Proof.
  split.
  - intros w. by repeat split.
  - intros w1 w2 w3 (?&?&?&?&?) (?&?&?&?&?).
    repeat split; try congruence. by etrans.
Qed.

#[local] Instance steady_preorder : PreOrder steady.
Proof.
  split.
  - intros w. by repeat split.
  - intros w1 w2 w3 (?&?&?&?) (?&?&?&?).
    repeat split; try congruence. by etrans.
Qed.

Lemma trace_only_store_only w w' : trace_only w w' → store_only w w'.
Proof. intros (?&?&?&?&?&?&?). by repeat split. Qed.

Lemma store_only_steady w w' : store_only w w' → steady w w'.
Proof. intros (?&?&?&?&?). by repeat split. Qed.

Lemma trace_only_emit e w : trace_only w (emit e w).
Proof. repeat split. cbn. by apply prefix_app_r. Qed.

(** Sequencing and loops inherit any reflexive and transitive frame. *)
Lemma bind_frame {A B} (R : World → World → Prop) `{!PreOrder R}
    (m : M A) (k : A → M B) (w : World) :
  R w (m w).2 → (∀ a w1, R w1 (k a w1).2) → R w (bind m k w).2.
Proof.
  intros Hm Hk. unfold bind. destruct (m w) as [a w1]. cbn in Hm.
  etrans; [exact Hm | apply Hk].
Qed.

Lemma for_range_frame {A} (R : World → World → Prop) `{!PreOrder R}
    (body : A → M unit) (l : list A) :
  (∀ x w, R w (body x w).2) → ∀ w, R w (for_range l body w).2.
Proof.
  intros Hbody. induction l as [|x l IH]; intros w; cbn.
  - reflexivity.
  - apply bind_frame; [done | apply Hbody | intros _ w1; apply IH].
Qed.

Lemma logw_trace_only lvl msg w : trace_only w (logw lvl msg w).2.
Proof. apply trace_only_emit. Qed.

Lemma socket_write_trace_only c m w : trace_only w (Websocket.WriteJSON c m w).2.
Proof.
  unfold Websocket.WriteJSON. destruct (writeFails _ _); apply trace_only_emit.
Qed.

Lemma broadcastMessage_trace_only m s g w :
  trace_only w (Websocket.broadcastMessage m s g w).2.
Proof.
  unfold Websocket.broadcastMessage.
  apply bind_frame; [apply _ | reflexivity |]. intros l w1.
  apply for_range_frame; [apply _ |].
  intros [k c] w0. destruct (g || bool_decide (k = s)); [|reflexivity].
  apply bind_frame; [apply _ | apply socket_write_trace_only |].
  intros [e|] w2; [apply logw_trace_only | reflexivity].
Qed.

Lemma BroadcastTimerUpdate_trace_only t w :
  trace_only w (Websocket.BroadcastTimerUpdate t w).2.
Proof. apply broadcastMessage_trace_only. Qed.

Lemma service_broadcastTimerUpdate_trace_only t w :
  trace_only w (Service.broadcastTimerUpdate Main.wsHandler t w).2.
Proof.
  unfold Service.broadcastTimerUpdate.
  apply bind_frame; [apply _ | apply logw_trace_only |].
  intros _ w1. apply BroadcastTimerUpdate_trace_only.
Qed.

(** ** The tick *)

Lemma wrap64_int64 z : is_int64 z → wrap64 z = z.
Proof.
  unfold is_int64, min_int64, max_int64, wrap64. intros H.
  rewrite Z.mod_small; lia.
Qed.

Lemma row_of_timer_of id r : row_of (timer_of id r) = r.
Proof. by destruct r. Qed.

Lemma timer_of_row_of t : timer_of (ID t) (row_of t) = t.
Proof. by destruct t. Qed.

Lemma elem_of_all_timers (m : gmap N TimerRow) t :
  t ∈ Repository.all_timers m ↔ m !! ID t = Some (row_of t).
Proof.
  unfold Repository.all_timers. rewrite list_elem_of_fmap. split.
  - intros ([k r] & -> & Hin). apply elem_of_map_to_list in Hin.
    cbn. by rewrite row_of_timer_of.
  - intros H. exists (ID t, row_of t). split.
    + cbn. by rewrite timer_of_row_of.
    + by apply elem_of_map_to_list.
Qed.

Lemma NoDup_all_timers (m : gmap N TimerRow) : NoDup (ID <$> Repository.all_timers m).
Proof.
  unfold Repository.all_timers. rewrite <- list_fmap_compose.
  apply (NoDup_fst_map_to_list m).
Qed.

Lemma Update_store_only t w : store_only w (Repository.Update t w).2.
Proof.
  unfold Repository.Update. destruct (updateFails _ _); cbn;
    repeat split; cbn; by apply prefix_app_r.
Qed.

Lemma updateTimer_store_only t w :
  store_only w (Service.updateTimer Main.wsHandler t w).2.
Proof.
  unfold Service.updateTimer.
  destruct (negb (IsPaused t) && (0 <? CurrentTime t)); [|reflexivity].
  apply bind_frame; [apply _ | apply Update_store_only |].
  intros [e|] w1; apply trace_only_store_only;
    [apply logw_trace_only | apply service_broadcastTimerUpdate_trace_only].
Qed.

(** The table after the loop body has run for [t]. *)
Lemma updateTimer_rows t w :
  rows (Service.updateTimer Main.wsHandler t w).2 =
    let t' := set_CurrentTime (wrap64 (CurrentTime t - 1)) t in
    if negb (IsPaused t) && (0 <? CurrentTime t) && negb (updateFails (faults w) t')
    then <[ID t := row_of t']> (rows w) else rows w.
Proof.
  unfold Service.updateTimer. cbn zeta.
  destruct (negb (IsPaused t) && (0 <? CurrentTime t)); [|done].
  unfold bind, Repository.Update. cbn [andb].
  destruct (updateFails (faults w) _); cbn [negb]; [done|].
  match goal with |- rows (?f ?x ?w0).2 = _ =>
    pose proof (service_broadcastTimerUpdate_trace_only x w0) as (Hr&_) end.
  rewrite Hr. done.
Qed.

Lemma updateTimer_event t w :
  IsPaused t = false → 0 < CurrentTime t →
  let t' := set_CurrentTime (wrap64 (CurrentTime t - 1)) t in
  RepoUpdate t' (negb (updateFails (faults w) t'))
    ∈ trace (Service.updateTimer Main.wsHandler t w).2.
Proof.
  intros Hp Hc. cbn zeta. unfold Service.updateTimer.
  rewrite Hp. apply Z.ltb_lt in Hc. rewrite Hc. cbn [negb andb].
  unfold bind, Repository.Update.
  destruct (updateFails (faults w) _); cbn [negb].
  - cbn. set_solver.
  - match goal with |- _ ∈ trace (?f ?x ?w0).2 =>
      pose proof (service_broadcastTimerUpdate_trace_only x w0) as (_&_&_&_&_&_&Hpre) end.
    eapply elem_of_prefix; [|exact Hpre]. cbn. set_solver.
Qed.

Lemma for_range_updateTimer_other l w k :
  k ∉ ID <$> l →
  rows (for_range l (Service.updateTimer Main.wsHandler) w).2 !! k = rows w !! k.
Proof.
  revert w. induction l as [|x l IH]; intros w Hk; [done|].
  cbn. unfold bind.
  destruct (Service.updateTimer Main.wsHandler x w) as [u w1] eqn:E.
  rewrite fmap_cons in Hk. apply not_elem_of_cons in Hk as [Hne Hk].
  rewrite IH by done.
  replace w1 with (Service.updateTimer Main.wsHandler x w).2 by (by rewrite E).
  rewrite updateTimer_rows. cbn zeta.
  destruct (_ && _ && _); [|done]. by rewrite lookup_insert_ne.
Qed.

Lemma for_range_updateTimer_rows l w t :
  NoDup (ID <$> l) → t ∈ l →
  rows (for_range l (Service.updateTimer Main.wsHandler) w).2 !! ID t =
    let t' := set_CurrentTime (wrap64 (CurrentTime t - 1)) t in
    if negb (IsPaused t) && (0 <? CurrentTime t) && negb (updateFails (faults w) t')
    then Some (row_of t') else rows w !! ID t.
Proof.
  revert w. induction l as [|x l IH]; intros w Hnd Hin; [by apply elem_of_nil in Hin|].
  rewrite fmap_cons in Hnd. apply NoDup_cons in Hnd as [Hx Hnd].
  cbn [for_range]. unfold bind.
  destruct (Service.updateTimer Main.wsHandler x w) as [u w1] eqn:E.
  assert (w1 = (Service.updateTimer Main.wsHandler x w).2) as Hw1 by (by rewrite E).
  pose proof (updateTimer_store_only x w) as (_&_&_&Hf&_). rewrite <- Hw1 in Hf.
  apply elem_of_cons in Hin as [->|Hin].
  - rewrite for_range_updateTimer_other by done.
    rewrite Hw1, updateTimer_rows. cbn zeta.
    destruct (_ && _ && _); [by rewrite lookup_insert_eq | done].
  - rewrite IH by done. cbn zeta. rewrite Hf.
    assert (ID x ≠ ID t) as Hne.
    { intros Heq. apply Hx. rewrite Heq. by apply list_elem_of_fmap_2. }
    destruct (_ && _ && _); [done|].
    rewrite Hw1, updateTimer_rows. cbn zeta.
    destruct (_ && _ && _); [|done]. by rewrite lookup_insert_ne.
Qed.

Lemma for_range_updateTimer_event l w t :
  t ∈ l → IsPaused t = false → 0 < CurrentTime t →
  let t' := set_CurrentTime (wrap64 (CurrentTime t - 1)) t in
  RepoUpdate t' (negb (updateFails (faults w) t'))
    ∈ trace (for_range l (Service.updateTimer Main.wsHandler) w).2.
Proof.
  intros Hin Hp Hc. cbn zeta.
  revert w. induction l as [|x l IH]; intros w; [by apply elem_of_nil in Hin|].
  cbn [for_range]. unfold bind.
  destruct (Service.updateTimer Main.wsHandler x w) as [u w1] eqn:E.
  assert (w1 = (Service.updateTimer Main.wsHandler x w).2) as Hw1 by (by rewrite E).
  pose proof (updateTimer_store_only x w) as (_&_&_&Hf&_). rewrite <- Hw1 in Hf.
  apply elem_of_cons in Hin as [->|Hin].
  - pose proof (for_range_frame store_only (Service.updateTimer Main.wsHandler) l
                  updateTimer_store_only w1) as (_&_&_&_&Hpre).
    eapply elem_of_prefix; [|exact Hpre].
    rewrite Hw1. by apply updateTimer_event.
  - rewrite <- Hf. by apply IH.
Qed.

(** C1.  For every timer [t] that [GetActiveTimers] returns, one run of
    [updateTimers] does this.  When [t] is not paused and
    [CurrentTime t > 0], the loop decrements [CurrentTime] by exactly 1 and
    hands that timer to [repo.Update]; the row then holds the decremented
    value (and the old one if the store refused the update).  When [t] is
    paused or [CurrentTime t = 0], the row is left as it was.  A
    non-negative [CurrentTime] is never made negative. *)
Theorem updateTimers_tick (w w1 : World) (timers : list Timer) (t : Timer) :
  Repository.GetActiveTimers w = (Ok timers, w1) →
  t ∈ timers →
  is_int64 (CurrentTime t) →
  let w' := (Main.updateTimers w).2 in
  let t' := set_CurrentTime (CurrentTime t - 1) t in
  (IsPaused t = false → 0 < CurrentTime t →
     RepoUpdate t' (negb (updateFails (faults w) t')) ∈ trace w' ∧
     rows w' !! ID t = Some (row_of (if updateFails (faults w) t' then t else t'))) ∧
  (IsPaused t = true ∨ CurrentTime t = 0 → rows w' !! ID t = Some (row_of t)) ∧
  (0 ≤ CurrentTime t →
     ∃ r', rows w' !! ID t = Some r' ∧ 0 ≤ row_CurrentTime r').
Proof.
  intros Hget Hin Hrange. cbn zeta.
  unfold Repository.GetActiveTimers in Hget.
  destruct (getActiveFails (faults w)) eqn:Hfail; [done|].
  injection Hget as <- <-.
  assert (rows (Main.updateTimers w).2 !! ID t =
          let t' := set_CurrentTime (wrap64 (CurrentTime t - 1)) t in
          if negb (IsPaused t) && (0 <? CurrentTime t)
               && negb (updateFails (faults w) t')
          then Some (row_of t') else Some (row_of t)) as Hrows.
  { unfold Main.updateTimers, Service.updateTimers, bind, Repository.GetActiveTimers.
    rewrite Hfail. rewrite for_range_updateTimer_rows; [|apply NoDup_all_timers|done].
    cbn. by apply elem_of_all_timers in Hin as ->. }
  cbn zeta in Hrows.
  assert (0 < CurrentTime t → wrap64 (CurrentTime t - 1) = CurrentTime t - 1) as Hwrap.
  { intros ?. apply wrap64_int64. unfold is_int64, min_int64, max_int64 in *. lia. }
  split; [|split].
  - intros Hp Hc. rewrite <- (Hwrap Hc). split.
    + unfold Main.updateTimers, Service.updateTimers, bind, Repository.GetActiveTimers.
      rewrite Hfail.
      by apply (for_range_updateTimer_event _ (emit (RepoGetActiveTimers true) w)).
    + rewrite Hrows, Hp. apply Z.ltb_lt in Hc. rewrite Hc. cbn.
      by destruct (updateFails _ _).
  - intros Hidle. rewrite Hrows.
    destruct Hidle as [-> | ->]; [done|]. by rewrite andb_false_r.
  - intros Hnn. rewrite Hrows.
    destruct (negb (IsPaused t) && (0 <? CurrentTime t)) eqn:Hgo; cbn.
    + apply andb_true_iff in Hgo as [_ Hc%Z.ltb_lt].
      destruct (updateFails _ _); cbn; eexists; (split; [done|]); cbn; [lia|].
      rewrite Hwrap by done. lia.
    + eexists; split; [done|]. cbn. lia.
Qed.

Lemma updateTimers_tick_witness :
  Examples.t1 ∈ Repository.all_timers Examples.table ∧
  is_int64 (CurrentTime Examples.t1) ∧
  rows (Main.updateTimers Examples.world).2 !! 1%N = Some (mkRow "s1" 60 29 false).
Proof.
  assert (Examples.t1 ∈ Repository.all_timers Examples.table) as Hin.
  { apply elem_of_all_timers. reflexivity. }
  assert (is_int64 (CurrentTime Examples.t1)) as Hr.
  { unfold is_int64, min_int64, max_int64. simpl. lia. }
  split; [exact Hin|]. split; [exact Hr|].
  destruct (updateTimers_tick Examples.world _ _ Examples.t1 eq_refl Hin Hr) as [H _].
  destruct H as [_ H]; [reflexivity | simpl; lia |].
  exact H.
Defined.

(** ** The command surface *)

(** Unfolds one service call down to the collaborators and splits on every
    outcome. *)
Ltac run_call :=
  unfold Service.CreateTimer, Service.PauseTimer, Service.ResumeTimer,
    Service.ModifyTimer, Service.StopTimer, Service.persistTimer,
    Repository.Create, Repository.Update, Repository.FindByID, Repository.Delete,
    Redis.Set_, Redis.Del, logw, modify, bind, ret;
  repeat case_match; simplify_eq; cbn in *.

Lemma store_ok_insert w id r (w' : World) :
  store_ok w → row_ok r → rows w' = <[id := r]> (rows w) → store_ok w'.
Proof.
  intros Hok Hr Hrows k r' Hk. rewrite Hrows in Hk.
  destruct (decide (id = k)) as [->|Hne].
  - rewrite lookup_insert_eq in Hk. by simplify_eq.
  - rewrite lookup_insert_ne in Hk by done. by eapply Hok.
Qed.

Lemma store_ok_delete w id (w' : World) :
  store_ok w → rows w' = delete id (rows w) → store_ok w'.
Proof.
  intros Hok Hrows k r' Hk. rewrite Hrows in Hk.
  apply lookup_delete_Some in Hk as [_ Hk]. by eapply Hok.
Qed.

Lemma store_ok_same w (w' : World) : store_ok w → rows w' = rows w → store_ok w'.
Proof. intros Hok Hrows k r Hk. rewrite Hrows in Hk. by eapply Hok. Qed.

(** Closes [store_ok w'] when [w'] is [w] with at most one row written or
    deleted. *)
Ltac store_ok_step w :=
  first [ apply (store_ok_same w); [assumption | reflexivity]
        | eapply (store_ok_delete w); [assumption | reflexivity]
        | eapply (store_ok_insert w); [assumption | | reflexivity];
          unfold row_ok, is_int64 in *; cbn; lia ].

Lemma CreateTimer_store_ok sessionID maxTime w :
  store_ok w → 0 ≤ maxTime → is_int64 maxTime →
  store_ok (Service.CreateTimer sessionID maxTime w).2.
Proof.
  intros Hok Hm Hr. run_call; store_ok_step w.
Qed.

Lemma FindByID_row id t w w1 :
  Repository.FindByID id w = (Ok t, w1) →
  ∃ r, rows w !! id = Some r ∧ t = timer_of id r ∧ rows w1 = rows w.
Proof.
  unfold Repository.FindByID. repeat case_match; intros; simplify_eq.
  eexists. by repeat split.
Qed.

Lemma PauseTimer_store_ok id w : store_ok w → store_ok (Service.PauseTimer id w).2.
Proof.
  intros Hok. unfold Service.PauseTimer, bind.
  destruct (Repository.FindByID id w) as [[t|e] w1] eqn:E.
  - apply FindByID_row in E as (r & Hr & -> & Hrows).
    pose proof (Hok _ _ Hr) as Hrow.
    assert (store_ok w1) as Hok1 by (by apply (store_ok_same w)).
    run_call; store_ok_step w1.
  - assert (rows w1 = rows w) as Hrows.
    { revert E. unfold Repository.FindByID. repeat case_match; intros; by simplify_eq. }
    run_call. by apply (store_ok_same w).
Qed.

Lemma ResumeTimer_store_ok id w : store_ok w → store_ok (Service.ResumeTimer id w).2.
Proof.
  intros Hok. unfold Service.ResumeTimer, bind.
  destruct (Repository.FindByID id w) as [[t|e] w1] eqn:E.
  - apply FindByID_row in E as (r & Hr & -> & Hrows).
    pose proof (Hok _ _ Hr) as Hrow.
    assert (store_ok w1) as Hok1 by (by apply (store_ok_same w)).
    run_call; store_ok_step w1.
  - assert (rows w1 = rows w) as Hrows.
    { revert E. unfold Repository.FindByID. repeat case_match; intros; by simplify_eq. }
    run_call. by apply (store_ok_same w).
Qed.

Lemma ModifyTimer_store_ok id newMaxTime w :
  store_ok w → 0 ≤ newMaxTime → is_int64 newMaxTime →
  store_ok (Service.ModifyTimer id newMaxTime w).2.
Proof.
  intros Hok Hm Hi. unfold Service.ModifyTimer, bind.
  destruct (Repository.FindByID id w) as [[t|e] w1] eqn:E.
  - apply FindByID_row in E as (r & Hr & -> & Hrows).
    assert (store_ok w1) as Hok1 by (by apply (store_ok_same w)).
    run_call; store_ok_step w1.
  - assert (rows w1 = rows w) as Hrows.
    { revert E. unfold Repository.FindByID. repeat case_match; intros; by simplify_eq. }
    run_call. by apply (store_ok_same w).
Qed.

Lemma StopTimer_store_ok id w : store_ok w → store_ok (Service.StopTimer id w).2.
Proof. intros Hok. run_call; store_ok_step w. Qed.

Lemma updateTimer_store_ok t w :
  store_ok w → row_ok (row_of t) →
  store_ok (Service.updateTimer Main.wsHandler t w).2.
Proof.
  intros Hok Ht. apply (store_ok_same (with_rows (λ _, rows (Service.updateTimer Main.wsHandler t w).2) w));
    [|done].
  rewrite updateTimer_rows. cbn zeta.
  destruct (_ && _ && _) eqn:Hgo; [|by apply (store_ok_same w)].
  apply andb_true_iff in Hgo as [Hgo _]. apply andb_true_iff in Hgo as [_ Hc%Z.ltb_lt].
  eapply (store_ok_insert w); [done| |reflexivity].
  unfold row_ok, is_int64, min_int64, max_int64 in *. cbn in *.
  rewrite wrap64_int64; [lia|]. unfold is_int64, min_int64, max_int64. lia.
Qed.

Lemma updateTimers_store_ok w : store_ok w → store_ok (Main.updateTimers w).2.
Proof.
  intros Hok. unfold Main.updateTimers, Service.updateTimers, bind, Repository.GetActiveTimers.
  destruct (getActiveFails (faults w)); [by apply (store_ok_same w)|].
  assert (Forall (λ t, row_ok (row_of t)) (Repository.all_timers (rows w))) as Hall.
  { apply Forall_forall. intros t Ht%elem_of_all_timers. by eapply Hok. }
  assert (store_ok (emit (RepoGetActiveTimers true) w)) as Hok1
    by (by apply (store_ok_same w)).
  revert Hall Hok1. generalize (emit (RepoGetActiveTimers true) w).
  generalize (Repository.all_timers (rows w)).
  intros l. induction l as [|x l IH]; intros w0 Hall Hok0; [done|].
  apply Forall_cons in Hall as [Hx Hall]. cbn. unfold bind.
  destruct (Service.updateTimer Main.wsHandler x w0) as [u w1] eqn:E.
  apply IH; [done|].
  replace w1 with (Service.updateTimer Main.wsHandler x w0).2 by (by rewrite E).
  by apply updateTimer_store_ok.
Qed.

Lemma exec_store_ok c w : store_ok w → pre c → store_ok (Main.exec c w).2.
Proof.
  intros Hok Hpre. destruct c as [sid m|id|id|id m|id|]; cbn in *; unfold bind.
  - destruct Hpre as [Hm Hi].
    pose proof (CreateTimer_store_ok sid m w Hok) as Hs.
    destruct (Service.CreateTimer sid m w); cbn in *. by apply Hs.
  - pose proof (PauseTimer_store_ok id w Hok) as Hs.
    by destruct (Service.PauseTimer id w).
  - pose proof (ResumeTimer_store_ok id w Hok) as Hs.
    by destruct (Service.ResumeTimer id w).
  - destruct Hpre as [Hm Hi].
    pose proof (ModifyTimer_store_ok id m w Hok) as Hs.
    destruct (Service.ModifyTimer id m w); cbn in *. by apply Hs.
  - pose proof (StopTimer_store_ok id w Hok) as Hs.
    by destruct (Service.StopTimer id w).
  - by apply updateTimers_store_ok.
Qed.

(** C2.  Started from a table whose rows all satisfy
    [0 ≤ currentTime ≤ maxTime], any sequence of create, pause, resume,
    modify, stop and tick, with [maxTime ≥ 0] at each create and modify,
    leaves every row with [0 ≤ currentTime ≤ maxTime], whatever calls to
    the store, the cache or the sockets fail on the way. *)
Theorem invariant_current_time (w : World) (cs : list Main.Command) :
  store_ok w → Forall pre cs →
  ∀ id r, rows (Main.run cs w).2 !! id = Some r →
    0 ≤ row_CurrentTime r ≤ row_MaxTime r.
Proof.
  intros Hok Hpre.
  assert (store_ok (Main.run cs w).2) as H.
  { revert w Hok. induction Hpre as [|c cs Hc Hcs IH]; intros w Hok; [done|].
    cbn. unfold bind. destruct (Main.exec c w) as [u w1] eqn:E.
    apply IH. replace w1 with (Main.exec c w).2 by (by rewrite E).
    by apply exec_store_ok. }
  intros id r Hr. by destruct (H id r Hr).
Qed.

Lemma invariant_current_time_witness :
  store_ok (Main.init no_faults) ∧ Forall pre Examples.session ∧
  rows (Main.run Examples.session (Main.init no_faults)).2 !! 1%N
    = Some (mkRow "s1" 5 4 false) ∧
  0 ≤ 4 ≤ 5.
Proof.
  assert (store_ok (Main.init no_faults)) as Hok.
  { intros id r H. cbn in H. by rewrite lookup_empty in H. }
  assert (Forall pre Examples.session) as Hpre.
  { unfold Examples.session.
    repeat constructor; unfold is_int64, min_int64, max_int64; lia. }
  assert (rows (Main.run Examples.session (Main.init no_faults)).2 !! 1%N
          = Some (mkRow "s1" 5 4 false)) as Hrow by (vm_compute; reflexivity).
  split; [exact Hok|]. split; [exact Hpre|]. split; [exact Hrow|].
  exact (invariant_current_time _ _ Hok Hpre _ _ Hrow).
Defined.

Lemma fits_int64_spec (z : Z) : fits_int64 z = true ↔ is_int64 z.
Proof. unfold fits_int64, is_int64. rewrite andb_true_iff, !Z.leb_le. tauto. Qed.

(** C10.  [CreateTimer] checks nothing about its arguments: for every
    [sessionID] (the empty one too) and every [int64] [maxTime] (the
    negative ones too) it hands a timer with [CurrentTime = MaxTime =
    maxTime] and [IsPaused = false] to [repo.Create], and fails exactly
    when that call fails: then the error is logged and neither the table
    nor the cache changes.  Otherwise the row is in the table under the
    id the store gave it, the snapshot is written to Redis under
    ["timer:" + sessionID] (a Redis failure is logged, not returned), and
    the stored timer is returned.  The HTTP endpoint makes that one call
    and answers 500 or 201. *)
Theorem CreateTimer_validates_nothing (sessionID : string) (maxTime : Z) (w : World) :
  is_int64 maxTime →
  let attempt := mkTimer 0 sessionID maxTime maxTime false in
  let created := mkTimer (nextID w) sessionID maxTime maxTime false in
  let key := "timer:" +:+ sessionID in
  let cached := negb (redisSetFails (faults w) key) in
  let call := Service.CreateTimer sessionID maxTime w in
  let http :=
    Handlers.TimerHandler.CreateTimer Main.timerService (JRequest sessionID maxTime) w in
  if createFails (faults w) attempt then
    call.1 = Err ErrDatabase ∧
    trace call.2 =
      trace w ++ [RepoCreate attempt false; Log LvlError "Failed to create timer"] ∧
    rows call.2 = rows w ∧
    cache call.2 = cache w ∧
    http.1 = (500, Handlers.BodyText "Failed to create timer") ∧
    http.2 = emit (Log LvlError "Failed to create timer") call.2
  else
    call.1 = Ok created ∧
    rows call.2 = <[nextID w := row_of created]> (rows w) ∧
    cache call.2 = (if cached then <[key := JTimer created]> (cache w) else cache w) ∧
    trace call.2 =
      trace w ++ [RepoCreate created true; RedisSet key (JTimer created) cached] ++
      (if cached then [] else [Log LvlError "Failed to persist timer to Redis"]) ∧
    http.1 = (201, Handlers.BodyTimer created) ∧
    http.2 = call.2.
Proof.
  intros Hm%fits_int64_spec. cbn zeta.
  unfold Handlers.TimerHandler.CreateTimer, Main.timerService, Service.NewTimerService,
    Unmarshal_TimerRequest, Decode_TimerRequest.
  rewrite Hm. cbn [fst snd Websocket.CreateTimer req_SessionID req_MaxTime].
  unfold Service.CreateTimer, Service.persistTimer, Repository.Create, Redis.Set_,
    logw, modify, bind, ret, Marshal, set_ID.
  cbn [SessionID ID MaxTime CurrentTime IsPaused].
  destruct (createFails (faults w) _) eqn:Hc; cbn.
  - by rewrite <- app_assoc.
  - destruct (redisSetFails (faults w) _) eqn:Hr; cbn;
      split_and!; try reflexivity; by rewrite <- ?app_assoc.
Qed.

Lemma CreateTimer_validates_nothing_witness :
  is_int64 (-5) ∧
  (Service.CreateTimer "" (-5) (Main.init no_faults)).1 =
    Ok (mkTimer 1 "" (-5) (-5) false) ∧
  rows (Service.CreateTimer "" (-5) (Main.init no_faults)).2 =
    <[1%N := mkRow "" (-5) (-5) false]> ∅.
Proof.
  assert (is_int64 (-5)) as Hm by (unfold is_int64, min_int64, max_int64; lia).
  split; [exact Hm|].
  destruct (CreateTimer_validates_nothing "" (-5) (Main.init no_faults) Hm)
    as (H1 & H2 & _).
  split; [exact H1 | exact H2].
Defined.

(** ** Restore *)

Lemma fetched_app tr1 tr2 : fetched (tr1 ++ tr2) = fetched tr1 ++ fetched tr2.
Proof. apply omap_app. Qed.

Lemma updates_app tr1 tr2 : updates (tr1 ++ tr2) = updates tr1 ++ updates tr2.
Proof. apply omap_app. Qed.

(** One pass of the loop of [RestoreTimers]. *)
Lemma restoreKey_spec key w :
  let w' := (Service.restoreKey key w).2 in
  store_only w w' ∧
  fetched (trace w') = fetched (trace w) ++ [key] ∧
  updates (trace w') = updates (trace w) ++
    from_option (λ t, [(t, negb (updateFails (faults w) t))]) [] (snapshot w key) ∧
  rows w' = from_option (written (faults w) (rows w)) (rows w) (snapshot w key).
Proof.
  cbn zeta. unfold Service.restoreKey, snapshot, written, bind, Redis.Get,
    Repository.Update, logw, modify, ret.
  destruct (redisGetFails (faults w) key); cbn.
  { rewrite !fetched_app, !updates_app, !app_nil_r. cbn. repeat split.
    cbn. by apply prefix_app_r, prefix_app_r. }
  destruct (cache w !! key) as [v|]; cbn.
  2: { rewrite !fetched_app, !updates_app, !app_nil_r. cbn. repeat split.
       cbn. by apply prefix_app_r, prefix_app_r. }
  destruct (Unmarshal_Timer v) as [t|]; cbn.
  2: { rewrite !fetched_app, !updates_app, !app_nil_r. cbn. repeat split.
       cbn. by apply prefix_app_r, prefix_app_r. }
  destruct (updateFails (faults w) t); cbn;
    rewrite !fetched_app, !updates_app; cbn; rewrite ?app_nil_r;
    repeat split; cbn; rewrite <- ?app_assoc; by apply prefix_app_r.
Qed.

Lemma snapshot_store_only w w' key : store_only w w' → snapshot w' key = snapshot w key.
Proof. intros (Hc&_&_&Hf&_). unfold snapshot. by rewrite Hc, Hf. Qed.

Lemma for_range_restoreKey_spec keys w :
  let w' := (for_range keys Service.restoreKey w).2 in
  let timers := omap (snapshot w) keys in
  store_only w w' ∧
  fetched (trace w') = fetched (trace w) ++ keys ∧
  updates (trace w') = updates (trace w) ++
    ((λ t, (t, negb (updateFails (faults w) t))) <$> timers) ∧
  rows w' = foldl (written (faults w)) (rows w) timers.
Proof.
  cbn zeta. revert w. induction keys as [|key keys IH]; intros w.
  { cbn. rewrite !app_nil_r. by repeat split. }
  cbn [for_range]. unfold bind.
  destruct (Service.restoreKey key w) as [u w1] eqn:E.
  pose proof (restoreKey_spec key w) as (Hso & Hf & Hu & Hr).
  rewrite E in Hso, Hf, Hu, Hr. cbn [snd] in *.
  destruct (IH w1) as (Hso' & Hf' & Hu' & Hr').
  assert (omap (snapshot w1) keys = omap (snapshot w) keys) as Hsnap.
  { clear -Hso. induction keys as [|k l IHl]; [done|].
    csimpl. rewrite (snapshot_store_only w w1) by done. by rewrite IHl. }
  pose proof Hso as (_&_&_&Hfaults&_).
  rewrite Hsnap, Hfaults in *.
  split; [by etrans|].
  rewrite Hf', Hf, Hu', Hu, Hr', Hr. csimpl.
  destruct (snapshot w key) as [t|]; csimpl; rewrite <- ?app_assoc; done.
Qed.

(** C9.  Whatever keys [redis.Keys] has found, [RestoreTimers] returns
    [nil] and has fetched every one of them, once and in order; for each
    key whose value was fetched and decoded it has called [repo.Update]
    with that timer, and with no other, whether or not the fetch, the
    decoding or the store write of any other key failed. *)
Theorem RestoreTimers_attempts_every_key (w w1 : World) (keys : list string) :
  Redis.Keys "timer:" w = (Ok keys, w1) →
  let w' := (Main.RestoreTimers w).2 in
  let timers := omap (snapshot w) keys in
  (Main.RestoreTimers w).1 = None ∧
  fetched (trace w') = fetched (trace w) ++ keys ∧
  updates (trace w') = updates (trace w) ++
    ((λ t, (t, negb (updateFails (faults w) t))) <$> timers).
Proof.
  intros Hkeys. cbn zeta.
  unfold Main.RestoreTimers, Service.RestoreTimers, bind. rewrite Hkeys.
  pose proof (for_range_restoreKey_spec keys w1) as (_ & Hf & Hu & _).
  cbn zeta in *.
  destruct (for_range keys Service.restoreKey w1) as [u w2]. cbn in *.
  unfold Redis.Keys in Hkeys.
  destruct (redisKeysFails (faults w)); [done|]. injection Hkeys as _ <-.
  assert (omap (snapshot (emit (RedisKeys "timer:" true) w)) keys
          = omap (snapshot w) keys) as Hsnap by done.
  rewrite Hsnap in *. cbn in Hf, Hu.
  rewrite fetched_app, updates_app in *. cbn in Hf, Hu. rewrite app_nil_r in *.
  by repeat split.
Qed.

Lemma RestoreTimers_attempts_every_key_witness :
  (Redis.Keys "timer:" Examples.restart).1
    = Ok ["timer:s3"; "timer:s1"; "timer:s2"; "timer:bad"; "timer:x"] ∧
  (Main.RestoreTimers Examples.restart).1 = None ∧
  fetched (trace (Main.RestoreTimers Examples.restart).2)
    = ["timer:s3"; "timer:s1"; "timer:s2"; "timer:bad"; "timer:x"] ∧
  updates (trace (Main.RestoreTimers Examples.restart).2)
    = [(mkTimer 3 "s3" 10 7 false, false); (mkTimer 1 "s1" 60 42 true, true);
       (mkTimer 2 "s2" 10 9 false, true)].
Proof.
  split; [vm_compute; reflexivity|].
  destruct (RestoreTimers_attempts_every_key Examples.restart _ _ eq_refl)
    as (H1 & H2 & H3).
  split; [exact H1|]. split; [exact H2 | exact H3].
Defined.

(** ** The registry and the fan-out *)

Lemma writes_app tr1 tr2 : writes (tr1 ++ tr2) = writes tr1 ++ writes tr2.
Proof. apply omap_app. Qed.

(** Registering stores [conn] in the one slot of [sessionID] and touches no
    other slot, in both handlers. *)
Lemma register_lookup sessionID isGameMaster conn w k :
  connections (Websocket.register sessionID isGameMaster conn w).2 !! k =
    if decide (sessionID = k) then Some conn else connections w !! k.
Proof. cbn. apply lookup_insert. Qed.

Lemma handlers_register_lookup sessionID isGameMaster conn w k :
  connections (Handlers.register conn sessionID isGameMaster w).2 !! k =
    if decide (sessionID = k) then Some conn else connections w !! k.
Proof. cbn. apply lookup_insert. Qed.

(** Who [broadcastMessage] writes to: every slot when [isGameMaster] is set,
    and otherwise the slot of [sessionID]. *)
Lemma broadcastMessage_writes m sessionID isGameMaster w :
  writes (trace (Websocket.broadcastMessage m sessionID isGameMaster w).2) =
    writes (trace w) ++
    ((λ kc, (kc.2, m)) <$>
       filter (λ kc, isGameMaster || bool_decide (kc.1 = sessionID) = true)
              (map_to_list (connections w))).
Proof.
  unfold Websocket.broadcastMessage, bind, ask.
  generalize (map_to_list (connections w)). intros l. revert w.
  induction l as [|[k c] l IH]; intros w.
  { cbn. by rewrite app_nil_r. }
  cbn [for_range]. unfold bind. rewrite filter_cons. cbn [fst].
  destruct (isGameMaster || bool_decide (k = sessionID)) eqn:Hgo.
  - rewrite decide_True by done.
    unfold Websocket.WriteJSON, logw, modify, ret.
    destruct (writeFails (faults w) c); cbn -[for_range]; rewrite IH; cbn;
      rewrite !writes_app; cbn; rewrite <- ?app_assoc; by rewrite ?app_nil_r.
  - rewrite decide_False by done. cbn -[for_range]. by rewrite IH.
Qed.

(** A broadcast writes [m] to the socket of slot [k] exactly when the
    caller's flag is set or [k] is the session of the message. *)
Lemma broadcastMessage_recipient m sessionID isGameMaster w c :
  (c, m) ∈ writes (trace (Websocket.broadcastMessage m sessionID isGameMaster w).2) ↔
  (c, m) ∈ writes (trace w) ∨
  ∃ k, connections w !! k = Some c ∧ (isGameMaster = true ∨ k = sessionID).
Proof.
  rewrite broadcastMessage_writes, elem_of_app, list_elem_of_fmap.
  apply or_iff_compat_l. split.
  - intros ([k c'] & Heq & Hin). cbn in Heq. simplify_eq.
    apply list_elem_of_filter in Hin as [Hgo Hin]. cbn in Hgo.
    apply elem_of_map_to_list in Hin. exists k. split; [done|].
    apply orb_true_iff in Hgo as [?|?%bool_decide_eq_true]; auto.
  - intros (k & Hk & Hgo). exists (k, c). split; [done|].
    apply list_elem_of_filter. split; [|by apply elem_of_map_to_list].
    cbn. apply orb_true_iff. destruct Hgo as [?|?]; [by left|right].
    by apply bool_decide_eq_true.
Qed.

(** The broadcast of the tick engine reaches every registered socket,
    whatever its session and role. *)
Lemma BroadcastTimerUpdate_reaches_everyone t w k c :
  connections w !! k = Some c →
  (c, update_of t) ∈ writes (trace (Websocket.BroadcastTimerUpdate t w).2).
Proof.
  intros Hk. apply broadcastMessage_recipient. right. exists k. auto.
Qed.

(** A TIMER_STOP sent on behalf of a customer reaches a socket only if it
    is registered under the empty session identifier. *)
Lemma broadcastTimerStop_by_customer id w c :
  (c, stop_of id) ∈ writes (trace (Websocket.broadcastTimerStop id false w).2) →
  (c, stop_of id) ∈ writes (trace w) ∨ connections w !! "" = Some c.
Proof.
  intros [H|(k & Hk & [? | ->])]%broadcastMessage_recipient; auto. done.
Qed.

(** Registering under a session identifier that already has a socket does
    not add an entry. *)
Lemma register_same_session_size sessionID isGameMaster conn w :
  is_Some (connections w !! sessionID) →
  size (connections (Websocket.register sessionID isGameMaster conn w).2)
    = size (connections w).
Proof. intros [c Hc]. cbn. by eapply map_size_insert_Some. Qed.

(** C3.  The registry keeps one socket per session identifier.  With
    [ws1] registered under a session identifier, registering [ws2] under
    the same identifier leaves a registry with the single entry [ws2]:
    [ws1] is not closed, but it is no longer an entry, a later broadcast
    writes to [ws2] only, and when [ws1] goes away its deferred
    [closeConnection] removes the entry of [ws2].  The older handler does
    the same. *)
Theorem register_same_session_replaces :
  connections Examples.one_socket !! "" = Some Examples.ws1 ∧
  map_to_list (connections Examples.two_sockets) = [("", Examples.ws2)] ∧
  closed (trace Examples.two_sockets) = [] ∧
  writes (trace (Websocket.BroadcastTimerUpdate Examples.testTimer
                   Examples.two_sockets).2)
    = [(Examples.ws2, update_of Examples.testTimer)] ∧
  map_to_list (connections (Websocket.closeConnection "" Examples.ws1
                              Examples.two_sockets).2) = [] ∧
  map_to_list (connections
    (Handlers.register Examples.ws2 "" true
       (Handlers.register Examples.ws1 "" true (Main.init no_faults)).2).2)
    = [("", Examples.ws2)] ∧
  connections Examples.world !! "s1" = Some Examples.alice ∧
  writes (trace (Websocket.broadcastTimerUpdate Examples.t1 false
                   (Websocket.register "s1" false Examples.alice2 Examples.world).2).2)
    = [(Examples.alice2, update_of Examples.t1)].
Proof. vm_compute. by repeat split. Qed.

(** C4.  Who receives a TIMER_UPDATE is decided by the flag the caller
    passes, not by the role of the receiving socket.  In a registry with the
    customers [alice] (session [s1]) and [bob] (session [s2]) and the game
    master [master]: the tick of the timer of [s1] is written to all three,
    [bob] included; the same update broadcast on behalf of a customer is
    written to [alice] only, [master] left out.  The older handler does the
    same. *)
Theorem update_recipients_follow_the_caller :
  SessionID Examples.t1 = "s1" ∧
  connections Examples.world !! "s2" = Some Examples.bob ∧
  conn_isGameMaster Examples.bob = false ∧
  connections Examples.world !! "gm" = Some Examples.master ∧
  conn_isGameMaster Examples.master = true ∧
  writes (trace (Main.updateTimers Examples.world).2)
    = [(Examples.master, update_of (mkTimer 1 "s1" 60 29 false));
       (Examples.alice, update_of (mkTimer 1 "s1" 60 29 false));
       (Examples.bob, update_of (mkTimer 1 "s1" 60 29 false))] ∧
  writes (trace (Websocket.broadcastTimerUpdate Examples.t1 false Examples.world).2)
    = [(Examples.alice, update_of Examples.t1)] ∧
  writes (trace (Handlers.broadcastTimerUpdate Examples.t1 true Examples.world).2)
    = [(Examples.master, update_of Examples.t1);
       (Examples.alice, update_of Examples.t1);
       (Examples.bob, update_of Examples.t1)] ∧
  writes (trace (Handlers.broadcastTimerUpdate Examples.t1 false Examples.world).2)
    = [(Examples.alice, update_of Examples.t1)].
Proof. vm_compute. by repeat split. Qed.

(** C8.  Who receives a TIMER_STOP depends on who asked for the stop.  In
    the registry of C4, with timer 1 in the table: a stop sent by the
    customer [alice] deletes the row and is written to nobody, so [master]
    never hears of it; a stop sent by [master] is written to every socket,
    the customers included; a stop over HTTP answers 200 and is written to
    nobody.  The older handler does the same. *)
Theorem stop_recipients_follow_the_caller :
  let by_customer :=
    (Websocket.handleMessage Main.timerService Examples.stop_request "s1" false
       Examples.world).2 in
  let by_master :=
    (Websocket.handleMessage Main.timerService Examples.stop_request "gm" true
       Examples.world).2 in
  let by_http := Handlers.TimerHandler.StopTimer Main.timerService "1" Examples.world in
  rows Examples.world !! 1%N = Some (row_of Examples.t1) ∧
  (rows by_customer !! 1%N = None ∧ writes (trace by_customer) = []) ∧
  (rows by_master !! 1%N = None ∧
   writes (trace by_master)
     = [(Examples.master, stop_of 1); (Examples.alice, stop_of 1);
        (Examples.bob, stop_of 1)]) ∧
  (by_http.1 = (200, Handlers.BodyMessage "Timer stopped and deleted") ∧
   rows by_http.2 !! 1%N = None ∧ writes (trace by_http.2) = []) ∧
  writes (trace (Handlers.handleMessage ServiceTimerGo.NewTimerService
                   (stop_of 1) "s1" false Examples.world).2) = [] ∧
  writes (trace (Handlers.handleMessage ServiceTimerGo.NewTimerService
                   (stop_of 1) "gm" true Examples.world).2)
    = [(Examples.master, stop_of 1); (Examples.alice, stop_of 1);
       (Examples.bob, stop_of 1)].
Proof. vm_compute. by repeat split. Qed.

(** ** The snapshot cache *)

(** The tick never touches the cache. *)
Lemma updateTimers_cache w : cache (Main.updateTimers w).2 = cache w.
Proof.
  unfold Main.updateTimers, Service.updateTimers.
  assert (store_only w (Service.updateTimers Main.wsHandler w).2) as (H&_);
    [|exact H].
  unfold Service.updateTimers. apply bind_frame; [apply _ | |].
  - unfold Repository.GetActiveTimers.
    destruct (getActiveFails _); apply trace_only_store_only, trace_only_emit.
  - intros [l|e] w1.
    + apply for_range_frame; [apply _ | apply updateTimer_store_only].
    + apply trace_only_store_only, logw_trace_only.
Qed.

(** What a successful [StopTimer] does to the cache: it deletes the key
    made of the decimal digits of [id]. *)
Lemma StopTimer_cache id w :
  deleteFails (faults w) id = false →
  cache (Service.StopTimer id w).2 = delete ("timer:" +:+ Sprint id) (cache w).
Proof. intros H. unfold Service.StopTimer, bind, Repository.Delete. by rewrite H. Qed.

(** A snapshot stored under the session identifier survives [StopTimer]
    unless the session identifier happens to be the decimal digits of the
    timer's identifier. *)
Lemma StopTimer_snapshot_survives id sessionID w :
  sessionID ≠ Sprint id →
  cache (Service.StopTimer id w).2 !! ("timer:" +:+ sessionID)
    = cache w !! ("timer:" +:+ sessionID).
Proof.
  intros Hne. unfold Service.StopTimer, bind, Repository.Delete.
  destruct (deleteFails (faults w) id); [done|]. cbn -[String.append].
  apply lookup_delete_ne. cbn. intros Heq. by simplify_eq.
Qed.

(** C6.  [StopTimer] removes the row but not the snapshot the write path
    stored.  After [CreateTimer "s1" 60] has made timer 1, the cache holds
    its snapshot under ["timer:s1"]; [StopTimer 1] succeeds, the row is
    gone, the key it deletes is ["timer:1"], and the snapshot under
    ["timer:s1"] is still there.  The older service deletes the key made of
    the one character with code 1. *)
Theorem StopTimer_keeps_snapshot :
  let snap := JTimer (mkTimer 1 "s1" 60 60 false) in
  let after := Service.StopTimer 1 Examples.created in
  let after_old := ServiceTimerGo.StopTimer 1 Examples.created in
  rows Examples.created !! 1%N = Some (mkRow "s1" 60 60 false) ∧
  cache Examples.created !! "timer:s1" = Some snap ∧
  (after.1 = None ∧ rows after.2 !! 1%N = None ∧
   cache_deletes (trace after.2) = ["timer:1"] ∧
   cache after.2 !! "timer:s1" = Some snap) ∧
  (after_old.1 = None ∧ rows after_old.2 !! 1%N = None ∧
   cache_deletes (trace after_old.2) = ["timer:" +:+ string_of_rune 1] ∧
   cache after_old.2 !! "timer:s1" = Some snap).
Proof. vm_compute. by repeat split. Qed.

(** C7.  A tick that decrements a timer writes the row and broadcasts, and
    does not write the cache.  After [CreateTimer "s1" 60], one tick puts 59
    in the row and sends the update, the trace has no new [RedisSet], and
    the snapshot under ["timer:s1"] still says 60; [RestoreTimers] then
    writes 60 back into the row. *)
Theorem tick_skips_the_cache :
  let w := (Main.updateTimers Examples.created).2 in
  updates (trace w) = [(mkTimer 1 "s1" 60 59 false, true)] ∧
  rows w !! 1%N = Some (mkRow "s1" 60 59 false) ∧
  cache_writes (trace w) = cache_writes (trace Examples.created) ∧
  cache w !! "timer:s1" = Some (JTimer (mkTimer 1 "s1" 60 60 false)) ∧
  rows (Main.RestoreTimers w).2 !! 1%N = Some (mkRow "s1" 60 60 false).
Proof. vm_compute. by repeat split. Qed.

(** ** The stop signal *)

(** A second [StopTimerUpdates] is not a no-op: it panics. *)
Lemma StopTimerUpdates_twice_panics :
  Main.StopTimerUpdates (Main.init no_faults) = Returns Examples.stopped ∧
  Main.StopTimerUpdates Examples.stopped ≠ Returns Examples.stopped ∧
  Main.StopTimerUpdates Examples.stopped = Panics "close of closed channel".
Proof. split; [reflexivity|]. split; [discriminate | reflexivity]. Qed.

(** C5.  The stop signal is one-shot.  On an open stop channel
    [StopTimerUpdates] returns, having closed the channel and changed
    nothing else; from then on the loop returns as soon as it takes the
    stop case, without running another tick; and every further call of
    [StopTimerUpdates] panics. *)
Theorem StopTimerUpdates_one_shot (w : World) :
  stopChan w = ChanOpen →
  ∃ w1,
    Main.StopTimerUpdates w = Returns w1 ∧
    w1 = with_stopChan ChanClosed w ∧
    (∀ cases, Main.StartTimerUpdates (CaseStop :: cases) w1 = (true, w1)) ∧
    Main.StopTimerUpdates w1 = Panics "close of closed channel".
Proof.
  intros Hopen. exists (with_stopChan ChanClosed w).
  unfold Main.StopTimerUpdates, Service.StopTimerUpdates. rewrite Hopen.
  by repeat split.
Qed.

Lemma StopTimerUpdates_one_shot_witness :
  stopChan (Main.init no_faults) = ChanOpen ∧
  ∃ w1,
    Main.StopTimerUpdates (Main.init no_faults) = Returns w1 ∧
    Main.StopTimerUpdates w1 = Panics "close of closed channel".
Proof.
  split; [reflexivity|].
  destruct (StopTimerUpdates_one_shot (Main.init no_faults) eq_refl)
    as (w1 & H1 & _ & _ & H2).
  exists w1. split; [exact H1 | exact H2].
Defined.

(** * Further properties *)

(** ** Ticks over time *)

Lemma updateTimers_store_only w : store_only w (Main.updateTimers w).2.
Proof.
  unfold Main.updateTimers, Service.updateTimers. apply bind_frame; [apply _ | |].
  - unfold Repository.GetActiveTimers.
    destruct (getActiveFails _); apply trace_only_store_only, trace_only_emit.
  - intros [l|e] w1.
    + apply for_range_frame; [apply _ | apply updateTimer_store_only].
    + apply trace_only_store_only, logw_trace_only.
Qed.

(** The row of [id] after one tick, whatever fails. *)
Lemma updateTimers_row w id r :
  rows w !! id = Some r →
  rows (Main.updateTimers w).2 !! id =
    let t := timer_of id r in
    let t' := set_CurrentTime (wrap64 (CurrentTime t - 1)) t in
    if negb (getActiveFails (faults w)) && negb (IsPaused t) && (0 <? CurrentTime t)
         && negb (updateFails (faults w) t')
    then Some (row_of t') else Some r.
Proof.
  intros Hr. cbn zeta.
  unfold Main.updateTimers, Service.updateTimers, bind, Repository.GetActiveTimers.
  destruct (getActiveFails (faults w)); [done|]. cbn [negb andb].
  assert (timer_of id r ∈ Repository.all_timers (rows w)) as Hin.
  { apply elem_of_all_timers. cbn. by rewrite row_of_timer_of. }
  pose proof (for_range_updateTimer_rows _ (emit (RepoGetActiveTimers true) w)
                (timer_of id r) (NoDup_all_timers (rows w)) Hin) as H.
  cbn in H. cbn. rewrite H. destruct (_ && _ && _); [done|]. by rewrite Hr.
Qed.

(** A tick makes no row. *)
Lemma updateTimers_row_None w id :
  rows w !! id = None → rows (Main.updateTimers w).2 !! id = None.
Proof.
  intros Hr.
  unfold Main.updateTimers, Service.updateTimers, bind, Repository.GetActiveTimers.
  destruct (getActiveFails (faults w)); [done|].
  rewrite for_range_updateTimer_other; [done|].
  intros (t & -> & Hin%elem_of_all_timers)%list_elem_of_fmap. congruence.
Qed.

Lemma ticks_S n w : ticks (S n) w = ticks n (Main.updateTimers w).2.
Proof.
  unfold ticks, Main.run. cbn. unfold bind.
  by destruct (Main.updateTimers w).
Qed.

Lemma ticks_store_only n w : store_only w (ticks n w).2.
Proof.
  revert w. induction n as [|n IH]; intros w; [reflexivity|].
  rewrite ticks_S. etrans; [apply updateTimers_store_only | apply IH].
Qed.

Lemma ticks_row_running (w : World) (id : N) (r : TimerRow) (n : nat) :
  rows w !! id = Some r →
  row_IsPaused r = false →
  0 ≤ row_CurrentTime r →
  is_int64 (row_CurrentTime r) →
  getActiveFails (faults w) = false →
  (∀ t, ID t = id → updateFails (faults w) t = false) →
  rows (ticks n w).2 !! id = Some (countdown n r).
Proof.
  revert w r. induction n as [|n IH]; intros w r Hr Hp Hc Hi Hga Hup.
  { cbn. rewrite Hr. f_equal. destruct r; unfold countdown; cbn in *. f_equal. lia. }
  rewrite ticks_S.
  pose proof (updateTimers_store_only w) as (_&_&_&Hf&_).
  pose proof (updateTimers_row w id r Hr) as Hrow. cbn zeta in Hrow.
  rewrite Hga, Hup in Hrow by done. cbn in Hrow. rewrite Hp in Hrow. cbn in Hrow.
  destruct (0 <? row_CurrentTime r) eqn:Hpos.
  - apply Z.ltb_lt in Hpos.
    rewrite wrap64_int64 in Hrow
      by (unfold is_int64, min_int64, max_int64 in *; lia).
    erewrite IH; [| exact Hrow | done | cbn; lia
                  | unfold is_int64, min_int64, max_int64 in *; cbn; lia
                  | by rewrite Hf | by rewrite Hf].
    unfold countdown. cbn. f_equal. f_equal. lia.
  - apply Z.ltb_ge in Hpos.
    erewrite IH; [| exact Hrow | done | done | done | by rewrite Hf | by rewrite Hf].
    unfold countdown. f_equal. f_equal. lia.
Qed.

(** X1.  A running timer counts down one per tick and stops at zero: if the
    row of [id] is not paused and holds [c ≥ 0], and the store serves the
    listing and the writes of that timer, then after [n] ticks the row
    holds [max 0 (c - n)] and is otherwise the same. *)
Theorem ticks_countdown (w : World) (id : N) (r : TimerRow) (n : nat) :
  rows w !! id = Some r →
  row_IsPaused r = false →
  0 ≤ row_CurrentTime r →
  is_int64 (row_CurrentTime r) →
  getActiveFails (faults w) = false →
  (∀ t, ID t = id → updateFails (faults w) t = false) →
  rows (ticks n w).2 !! id = Some (countdown n r).
Proof. apply ticks_row_running. Qed.

Lemma ticks_countdown_witness :
  rows Examples.world !! 1%N = Some (mkRow "s1" 60 30 false) ∧
  rows (ticks 5 Examples.world).2 !! 1%N = Some (mkRow "s1" 60 25 false) ∧
  rows (ticks 40 Examples.world).2 !! 1%N = Some (mkRow "s1" 60 0 false).
Proof.
  assert (rows Examples.world !! 1%N = Some (mkRow "s1" 60 30 false)) as Hr
    by reflexivity.
  assert (is_int64 30) as Hi by (unfold is_int64, min_int64, max_int64; lia).
  split; [exact Hr|]. split.
  - exact (ticks_countdown Examples.world 1 _ 5 Hr eq_refl
             ltac:(simpl; lia) Hi eq_refl (λ _ _, eq_refl)).
  - exact (ticks_countdown Examples.world 1 _ 40 Hr eq_refl
             ltac:(simpl; lia) Hi eq_refl (λ _ _, eq_refl)).
Defined.

Lemma ticks_row_idle (w : World) (id : N) (r : TimerRow) (n : nat) :
  rows w !! id = Some r → idle r → rows (ticks n w).2 !! id = Some r.
Proof.
  revert w. induction n as [|n IH]; intros w Hr Hidle; [done|].
  rewrite ticks_S. apply IH; [|done].
  rewrite (updateTimers_row w id r Hr). cbn zeta.
  destruct (_ && _ && _ && _) eqn:Hgo; [|done].
  apply andb_true_iff in Hgo as [Hgo _]. apply andb_true_iff in Hgo as [Hgo Hc].
  apply andb_true_iff in Hgo as [_ Hp]. apply Z.ltb_lt in Hc. cbn in Hc, Hp.
  destruct Hidle as [Hidle|Hidle]; [rewrite Hidle in Hp; done | lia].
Qed.

(** X2.  A paused timer, and a timer at zero, is frozen: whatever else
    ticks and whatever fails, its row is the same after any number of
    ticks. *)
Theorem ticks_idle (w : World) (id : N) (r : TimerRow) (n : nat) :
  rows w !! id = Some r → idle r → rows (ticks n w).2 !! id = Some r.
Proof. apply ticks_row_idle. Qed.

Lemma ticks_idle_witness :
  rows Examples.world !! 3%N = Some (mkRow "s3" 10 5 true) ∧
  rows (ticks 7 Examples.world).2 !! 3%N = Some (mkRow "s3" 10 5 true).
Proof.
  assert (rows Examples.world !! 3%N = Some (mkRow "s3" 10 5 true)) as Hr
    by reflexivity.
  split; [exact Hr|].
  exact (ticks_idle Examples.world 3 _ 7 Hr (or_introl eq_refl)).
Defined.

(** X3.  A tick neither makes nor removes rows, and changes nothing of a
    row but its counter, which goes down by one or stays. *)
Theorem tick_changes_only_counters (w : World) :
  (∀ id r, rows w !! id = Some r → is_int64 (row_CurrentTime r)) →
  let w' := (Main.updateTimers w).2 in
  dom (rows w') = dom (rows w) ∧
  ∀ id r, rows w !! id = Some r →
    ∃ r', rows w' !! id = Some r' ∧
      row_SessionID r' = row_SessionID r ∧ row_MaxTime r' = row_MaxTime r ∧
      row_IsPaused r' = row_IsPaused r ∧
      row_CurrentTime r - 1 ≤ row_CurrentTime r' ≤ row_CurrentTime r.
Proof.
  intros Hint. cbn zeta. split.
  - apply set_eq. intros id. rewrite !elem_of_dom.
    destruct (rows w !! id) as [r|] eqn:Hr.
    + rewrite (updateTimers_row w id r Hr). cbn zeta. by destruct (_ && _ && _ && _).
    + by rewrite (updateTimers_row_None w id Hr).
  - intros id r Hr. rewrite (updateTimers_row w id r Hr). cbn zeta.
    destruct (_ && _ && _ && _) eqn:Hgo.
    + apply andb_true_iff in Hgo as [Hgo _]. apply andb_true_iff in Hgo as [_ Hc].
      apply Z.ltb_lt in Hc. cbn in Hc. specialize (Hint id r Hr).
      eexists. split; [done|]. cbn.
      rewrite wrap64_int64 by (unfold is_int64, min_int64, max_int64 in *; lia).
      repeat split; lia.
    + exists r. repeat split; lia.
Qed.

Lemma tick_changes_only_counters_witness :
  dom (rows (Main.updateTimers Examples.world).2) = dom (rows Examples.world).
Proof.
  refine (proj1 (tick_changes_only_counters Examples.world _)).
  intros id r Hr. unfold is_int64, min_int64, max_int64.
  change (rows Examples.world) with Examples.table in Hr. unfold Examples.table in Hr.
  destruct (decide (id = 1%N)) as [->|?]; [simplify_map_eq; simpl; lia|].
  destruct (decide (id = 2%N)) as [->|?]; [simplify_map_eq; simpl; lia|].
  destruct (decide (id = 3%N)) as [->|?]; [simplify_map_eq; simpl; lia|].
  simplify_map_eq.
Defined.

Lemma for_range_updateTimer_idle l w :
  Forall (λ t, idle (row_of t)) l →
  for_range l (Service.updateTimer Main.wsHandler) w = (tt, w).
Proof.
  induction 1 as [|t l Ht _ IH]; [done|]. cbn. unfold bind.
  assert (Service.updateTimer Main.wsHandler t w = (tt, w)) as ->; [|done].
  unfold Service.updateTimer.
  destruct Ht as [Hp|Hc]; cbn in Hp || cbn in Hc.
  - by rewrite Hp.
  - apply Z.ltb_ge in Hc. rewrite Hc. by rewrite andb_false_r.
Qed.

(** X4.  Once every timer is paused or at zero, a tick is a no-op: it
    lists the timers and does nothing else, so the table and the cache are
    as they were, the store is not written and no socket is. *)
Theorem tick_on_idle_table (w : World) :
  (∀ id r, rows w !! id = Some r → idle r) →
  let w' := (Main.updateTimers w).2 in
  trace_only w w' ∧ updates (trace w') = updates (trace w) ∧
  writes (trace w') = writes (trace w).
Proof.
  intros Hidle. cbn zeta.
  unfold Main.updateTimers, Service.updateTimers, bind, Repository.GetActiveTimers.
  destruct (getActiveFails (faults w)).
  - cbn. rewrite !updates_app, !writes_app. cbn. rewrite !app_nil_r.
    repeat split. cbn. by apply prefix_app_r, prefix_app_r.
  - rewrite for_range_updateTimer_idle.
    + cbn. rewrite !updates_app, !writes_app. cbn. rewrite !app_nil_r.
      repeat split. cbn. by apply prefix_app_r.
    + apply Forall_forall. intros t Ht%elem_of_all_timers. by eapply Hidle.
Qed.

Lemma tick_on_idle_table_witness :
  let w := (ticks 40 Examples.world).2 in
  rows (Main.updateTimers w).2 = rows w ∧
  writes (trace (Main.updateTimers w).2) = writes (trace w).
Proof.
  cbn zeta.
  assert (∀ id r, rows (ticks 40 Examples.world).2 !! id = Some r → idle r) as Hidle.
  { intros id r.
    replace (rows (ticks 40 Examples.world).2)
      with (<[1%N := mkRow "s1" 60 0 false]> Examples.table)
      by (vm_compute; reflexivity).
    unfold Examples.table. intros Hr.
    destruct (decide (id = 1%N)) as [->|?]; [simplify_map_eq; right; simpl; lia|].
    destruct (decide (id = 2%N)) as [->|?]; [simplify_map_eq; right; simpl; lia|].
    destruct (decide (id = 3%N)) as [->|?]; [simplify_map_eq; by left|].
    simplify_map_eq. }
  destruct (tick_on_idle_table _ Hidle) as ((Hr&_) & _ & Hw).
  split; [exact Hr | exact Hw].
Defined.

(** ** What a tick sends *)

Lemma filter_all {A} (P : A → Prop) `{∀ x, Decision (P x)} (l : list A) :
  (∀ x, P x) → filter P l = l.
Proof.
  intros HP. induction l as [|x l IH]; [done|].
  rewrite filter_cons_True by done. by rewrite IH.
Qed.

Lemma service_broadcastTimerUpdate_writes t w :
  writes (trace (Service.broadcastTimerUpdate Main.wsHandler t w).2) =
    writes (trace w) ++ ((λ kc, (kc.2, update_of t)) <$> map_to_list (connections w)).
Proof.
  destruct t as [i s m c p].
  change (Service.broadcastTimerUpdate Main.wsHandler (mkTimer i s m c p) w)
    with (Websocket.broadcastMessage (update_of (mkTimer i s m c p)) s true
            (emit (Log LvlInfo "Timer updated") w)).
  rewrite broadcastMessage_writes. cbn [trace emit connections].
  rewrite writes_app. cbn [writes omap]. rewrite filter_all by done.
  cbn. by rewrite app_nil_r.
Qed.

Lemma updateTimer_writes t w :
  writes (trace (Service.updateTimer Main.wsHandler t w).2) =
    writes (trace w) ++ tick_broadcasts (faults w) (map_to_list (connections w)) t.
Proof.
  unfold Service.updateTimer, tick_broadcasts. cbn zeta.
  destruct (negb (IsPaused t) && (0 <? CurrentTime t)); cbn [andb];
    [|by rewrite app_nil_r].
  unfold bind, Repository.Update.
  destruct (updateFails (faults w) _); cbn [negb].
  - cbn. rewrite !writes_app. cbn. by rewrite !app_nil_r.
  - rewrite service_broadcastTimerUpdate_writes. cbn [trace emit connections with_rows].
    rewrite writes_app. cbn [writes omap]. cbn. by rewrite app_nil_r.
Qed.

Lemma for_range_updateTimer_writes l w :
  writes (trace (for_range l (Service.updateTimer Main.wsHandler) w).2) =
    writes (trace w) ++
    concat (tick_broadcasts (faults w) (map_to_list (connections w)) <$> l).
Proof.
  revert w. induction l as [|t l IH]; intros w; [cbn; by rewrite app_nil_r|].
  cbn [for_range]. unfold bind.
  pose proof (updateTimer_store_only t w) as (_&Hc&_&Hf&_).
  pose proof (updateTimer_writes t w) as Hw.
  destruct (Service.updateTimer Main.wsHandler t w) as [u w1]. cbn [snd] in *.
  rewrite IH, Hw, Hc, Hf. rewrite fmap_cons. cbn [concat]. by rewrite app_assoc.
Qed.

(** X5.  What a tick sends: going through the listed timers in order, for
    each one that was running and whose decremented state the store took,
    one TIMER_UPDATE carrying that state to every registered socket; for
    the others (paused, at zero, or refused by the store) nothing. *)
Theorem tick_sends_stored_decrements (w : World) :
  getActiveFails (faults w) = false →
  writes (trace (Main.updateTimers w).2) =
    writes (trace w) ++
    concat (tick_broadcasts (faults w) (map_to_list (connections w))
              <$> Repository.all_timers (rows w)).
Proof.
  intros Hga.
  unfold Main.updateTimers, Service.updateTimers, bind, Repository.GetActiveTimers.
  rewrite Hga. rewrite for_range_updateTimer_writes.
  cbn [trace emit faults connections]. rewrite writes_app. cbn [writes omap].
  cbn. by rewrite app_nil_r.
Qed.

Lemma tick_sends_stored_decrements_witness :
  getActiveFails (faults Examples.world) = false ∧
  writes (trace (Main.updateTimers Examples.world).2)
    = [(Examples.master, update_of (mkTimer 1 "s1" 60 29 false));
       (Examples.alice, update_of (mkTimer 1 "s1" 60 29 false));
       (Examples.bob, update_of (mkTimer 1 "s1" 60 29 false))].
Proof.
  split; [reflexivity|].
  exact (tick_sends_stored_decrements Examples.world eq_refl).
Defined.

(** ** Commands *)

Lemma for_range_app {A} (body : A → M unit) (l1 l2 : list A) w :
  for_range (l1 ++ l2) body w = for_range l2 body (for_range l1 body w).2.
Proof.
  revert w. induction l1 as [|x l1 IH]; intros w; [done|].
  cbn. unfold bind. destruct (body x w) as [u w1]. apply IH.
Qed.

Lemma prefix_snoc_trans (l1 l2 : list Event) e :
  l1 `prefix_of` l2 → l1 `prefix_of` l2 ++ [e].
Proof. apply prefix_app_r. Qed.

(** Commands and ticks leave the registry, the stop channel and the fault
    table alone. *)
Lemma exec_steady c w : steady w (Main.exec c w).2.
Proof.
  destruct c as [sid m|id|id|id m|id|]; cbn;
    try (apply store_only_steady, updateTimers_store_only);
    unfold Main.timerService, Service.NewTimerService, bind; cbn;
    run_call; repeat split; cbn; repeat apply prefix_snoc_trans; done.
Qed.

Lemma run_steady cs w : steady w (Main.run cs w).2.
Proof. unfold Main.run. apply for_range_frame; [apply _ | apply exec_steady]. Qed.

(** What a command that hands back a timer has done when it succeeds. *)
Lemma invoke_Ok c w timer w' :
  invoke c w = (Ok timer, w') →
  rows w' = <[ID timer := row_of timer]> (rows w) ∧
  cache w' = (if redisSetFails (faults w) ("timer:" +:+ SessionID timer)
              then cache w
              else <["timer:" +:+ SessionID timer := JTimer timer]> (cache w)) ∧
  faults w' = faults w.
Proof.
  destruct c as [sid m|id|id|id m]; cbn;
    unfold Main.timerService, Service.NewTimerService; cbn;
    run_call; intros; simplify_eq; cbn in *; first [done | congruence].
Qed.

Lemma ticks_row_None n w id :
  rows w !! id = None → rows (ticks n w).2 !! id = None.
Proof.
  revert w. induction n as [|n IH]; intros w Hr; [done|].
  rewrite ticks_S. by apply IH, updateTimers_row_None.
Qed.

(** X6.  Write-through: when create, pause, resume or modify hands back a
    timer, the row of that timer holds exactly the timer handed back, no
    other row has changed, and the snapshot under ["timer:" + sessionID] is
    that same timer, unless Redis refused the write, in which case the
    command has still succeeded and the cache is as it was. *)
Theorem command_writes_through (c : TimerCall) (w w' : World) (timer : Timer) :
  invoke c w = (Ok timer, w') →
  let key := "timer:" +:+ SessionID timer in
  rows w' !! ID timer = Some (row_of timer) ∧
  (∀ id, id ≠ ID timer → rows w' !! id = rows w !! id) ∧
  (if redisSetFails (faults w) key then cache w' = cache w
   else cache w' !! key = Some (JTimer timer) ∧
        ∀ k, k ≠ key → cache w' !! k = cache w !! k).
Proof.
  intros (Hr & Hc & _)%invoke_Ok. cbn zeta. rewrite Hr, Hc. split; [|split].
  - apply lookup_insert_eq.
  - intros id Hne. by apply lookup_insert_ne.
  - destruct (redisSetFails _ _); [done|]. split.
    + apply lookup_insert_eq.
    + intros k Hne. by apply lookup_insert_ne.
Qed.

Lemma command_writes_through_witness :
  invoke (CallPause 1) Examples.world
    = (Ok (mkTimer 1 "s1" 60 30 true), (invoke (CallPause 1) Examples.world).2) ∧
  rows (invoke (CallPause 1) Examples.world).2 !! 1%N = Some (mkRow "s1" 60 30 true) ∧
  cache (invoke (CallPause 1) Examples.world).2 !! "timer:s1"
    = Some (JTimer (mkTimer 1 "s1" 60 30 true)).
Proof.
  assert (invoke (CallPause 1) Examples.world
          = (Ok (mkTimer 1 "s1" 60 30 true), (invoke (CallPause 1) Examples.world).2))
    as H by reflexivity.
  split; [exact H|].
  destruct (command_writes_through _ _ _ _ H) as (Hr & _ & Hc & _).
  split; [exact Hr | exact Hc].
Defined.

(** X7.  Pause, resume and modify of a timer that has no row fail with
    record-not-found (or with the store's error when the lookup itself
    fails) and do nothing: the table, the cache and the registry are as
    they were, and neither the store nor the cache was written. *)
Theorem command_on_missing_timer (c : TimerCall) (id : N) (w : World) :
  target c = Some id →
  rows w !! id = None →
  (invoke c w).1 = Err (if findFails (faults w) id then ErrDatabase else ErrRecordNotFound) ∧
  trace_only w (invoke c w).2 ∧
  updates (trace (invoke c w).2) = updates (trace w) ∧
  cache_writes (trace (invoke c w).2) = cache_writes (trace w).
Proof.
  intros Ht Hr.
  destruct c as [sid m|i|i|i m]; cbn in Ht; simplify_eq;
    cbn; unfold Main.timerService, Service.NewTimerService; cbn;
    unfold Service.PauseTimer, Service.ResumeTimer, Service.ModifyTimer, bind,
      Repository.FindByID, logw, modify, ret;
    rewrite Hr; destruct (findFails (faults w) id); cbn;
    unfold updates, cache_writes; rewrite !omap_app; cbn; rewrite !app_nil_r;
    repeat split; cbn; by apply prefix_app_r, prefix_app_r.
Qed.

Lemma command_on_missing_timer_witness :
  rows Examples.world !! 9%N = None ∧
  (invoke (CallModify 9 5) Examples.world).1 = Err ErrRecordNotFound ∧
  rows (invoke (CallModify 9 5) Examples.world).2 = rows Examples.world.
Proof.
  assert (rows Examples.world !! 9%N = None) as Hr by reflexivity.
  split; [exact Hr|].
  destruct (command_on_missing_timer (CallModify 9 5) 9 Examples.world eq_refl Hr)
    as (H1 & (H2 & _) & _).
  split; [exact H1 | exact H2].
Defined.

Lemma exec_Pause_row w id r :
  rows w !! id = Some r → reliable_store (faults w) →
  rows (Main.exec (Main.Pause id) w).2 !! id
    = Some (mkRow (row_SessionID r) (row_MaxTime r) (row_CurrentTime r) true).
Proof.
  intros Hr (_ & Hup & Hfind). cbn.
  unfold Main.timerService, Service.NewTimerService, bind. cbn.
  unfold Service.PauseTimer, bind, Repository.FindByID, Repository.Update.
  rewrite Hfind, Hr. cbn. rewrite Hup. run_call; apply lookup_insert_eq.
Qed.

Lemma exec_Resume_row w id r :
  rows w !! id = Some r → reliable_store (faults w) →
  rows (Main.exec (Main.Resume id) w).2 !! id
    = Some (mkRow (row_SessionID r) (row_MaxTime r) (row_CurrentTime r) false).
Proof.
  intros Hr (_ & Hup & Hfind). cbn.
  unfold Main.timerService, Service.NewTimerService, bind. cbn.
  unfold Service.ResumeTimer, bind, Repository.FindByID, Repository.Update.
  rewrite Hfind, Hr. cbn. rewrite Hup. run_call; apply lookup_insert_eq.
Qed.

Lemma run_singleton c w : Main.run [c] w = (tt, (Main.exec c w).2).
Proof.
  unfold Main.run. cbn. unfold bind, ret. by destruct (Main.exec c w) as [[] ?].
Qed.

(** X8.  Pausing stops the countdown and resuming restarts it where it
    stood: with a store that works, pause, [k] ticks, resume, [n] ticks
    take the counter [c ≥ 0] of a timer to [max 0 (c - n)], whatever [k]
    is, and leave the timer running. *)
Theorem pause_ticks_resume_ticks (w : World) (id : N) (r : TimerRow) (k n : nat) :
  rows w !! id = Some r →
  0 ≤ row_CurrentTime r →
  is_int64 (row_CurrentTime r) →
  reliable_store (faults w) →
  rows (Main.run ([Main.Pause id] ++ replicate k Main.Tick ++
                  [Main.Resume id] ++ replicate n Main.Tick) w).2 !! id
    = Some (mkRow (row_SessionID r) (row_MaxTime r)
                  (Z.max 0 (row_CurrentTime r - Z.of_nat n)) false).
Proof.
  intros Hr Hc Hi Hrel. unfold Main.run. rewrite !for_range_app.
  fold (Main.run [Main.Pause id] w). rewrite run_singleton. cbn [snd].
  set (w1 := (Main.exec (Main.Pause id) w).2).
  assert (faults w1 = faults w) as Hf1 by (by destruct (exec_steady (Main.Pause id) w) as (_&_&?&_)).
  pose proof (exec_Pause_row w id r Hr Hrel) as Hr1. fold w1 in Hr1.
  fold (Main.run (replicate k Main.Tick) w1). fold (ticks k w1).
  set (w2 := (ticks k w1).2).
  assert (faults w2 = faults w) as Hf2.
  { destruct (ticks_store_only k w1) as (_&_&_&?&_). unfold w2. congruence. }
  pose proof (ticks_row_idle w1 id _ k Hr1 (or_introl eq_refl)) as Hr2. fold w2 in Hr2.
  fold (Main.run [Main.Resume id] w2). rewrite run_singleton. cbn [snd].
  set (w3 := (Main.exec (Main.Resume id) w2).2).
  assert (faults w3 = faults w) as Hf3.
  { destruct (exec_steady (Main.Resume id) w2) as (_&_&?&_). unfold w3. congruence. }
  assert (reliable_store (faults w2)) as Hrel2 by (by rewrite Hf2).
  pose proof (exec_Resume_row w2 id _ Hr2 Hrel2) as Hr3. fold w3 in Hr3. cbn in Hr3.
  fold (Main.run (replicate n Main.Tick) w3). fold (ticks n w3).
  destruct Hrel as (Hga & Hup & _).
  rewrite (ticks_row_running w3 id _ n Hr3); cbn; try done.
  - by rewrite Hf3.
  - intros t _. by rewrite Hf3.
Qed.

Lemma pause_ticks_resume_ticks_witness :
  rows Examples.world !! 1%N = Some (mkRow "s1" 60 30 false) ∧
  reliable_store (faults Examples.world) ∧
  rows (Main.run ([Main.Pause 1] ++ replicate 3 Main.Tick ++
                  [Main.Resume 1] ++ replicate 2 Main.Tick) Examples.world).2 !! 1%N
    = Some (mkRow "s1" 60 28 false).
Proof.
  assert (rows Examples.world !! 1%N = Some (mkRow "s1" 60 30 false)) as Hr
    by reflexivity.
  assert (reliable_store (faults Examples.world)) as Hrel by (by repeat split).
  split; [exact Hr|]. split; [exact Hrel|].
  exact (pause_ticks_resume_ticks Examples.world 1 _ 3 2 Hr ltac:(simpl; lia)
           ltac:(unfold is_int64, min_int64, max_int64; simpl; lia) Hrel).
Defined.

(** X9.  A stopped timer is gone for good: once [StopTimer] has returned
    [nil], the timer has no row, no number of ticks brings one back, and
    pause, resume and modify of it fail with record-not-found. *)
Theorem stopped_timer_is_gone (w w1 : World) (id : N) (n : nat) :
  Service.StopTimer id w = (None, w1) →
  findFails (faults w) id = false →
  let wn := (ticks n w1).2 in
  rows wn !! id = None ∧
  (Service.PauseTimer id wn).1 = Err ErrRecordNotFound ∧
  (Service.ResumeTimer id wn).1 = Err ErrRecordNotFound ∧
  ∀ newMaxTime, (Service.ModifyTimer id newMaxTime wn).1 = Err ErrRecordNotFound.
Proof.
  intros Hstop Hfind. cbn zeta.
  assert (rows w1 !! id = None ∧ faults w1 = faults w) as [Hr1 Hf1].
  { revert Hstop. unfold Service.StopTimer, bind, Repository.Delete, Redis.Del, logw,
      modify, ret.
    destruct (deleteFails (faults w) id); intros; simplify_eq. cbn.
    split; [apply lookup_delete_eq | done]. }
  pose proof (ticks_row_None n w1 id Hr1) as Hrn.
  assert (findFails (faults (ticks n w1).2) id = false) as Hfn.
  { destruct (ticks_store_only n w1) as (_&_&_&->&_). by rewrite Hf1. }
  split; [done|].
  unfold Service.PauseTimer, Service.ResumeTimer, Service.ModifyTimer, bind,
    Repository.FindByID.
  rewrite Hfn, Hrn. by repeat split.
Qed.

Lemma stopped_timer_is_gone_witness :
  (Service.StopTimer 1 Examples.world).1 = None ∧
  rows (ticks 3 (Service.StopTimer 1 Examples.world).2).2 !! 1%N = None.
Proof.
  split; [reflexivity|].
  exact (proj1 (stopped_timer_is_gone Examples.world _ 1 3 eq_refl eq_refl)).
Defined.

(** ** Snapshots and restore *)

Lemma foldl_written_lookup f (m : gmap N TimerRow) (l : list Timer) (t : Timer) :
  t ∈ l → updateFails f t = false →
  (∀ t', t' ∈ l → ID t' = ID t → t' = t) →
  foldl (written f) m l !! ID t = Some (row_of t).
Proof.
  revert t. induction l as [|x l IH] using rev_ind; intros t Hin Hup Huniq;
    [by apply elem_of_nil in Hin|].
  rewrite foldl_app. cbn.
  destruct (decide (ID x = ID t)) as [Heq|Hid].
  - assert (x = t) as ->.
    { apply Huniq; [|done]. apply elem_of_app. right. by apply list_elem_of_singleton. }
    unfold written. rewrite Hup. apply lookup_insert_eq.
  - apply elem_of_app in Hin as [Hin|Hin%list_elem_of_singleton]; [|congruence].
    assert (foldl (written f) m l !! ID t = Some (row_of t)) as Hl.
    { apply IH; [done..|]. intros t' Ht'. apply Huniq, elem_of_app. by left. }
    unfold written at 1. destruct (updateFails f x); [done|].
    by rewrite lookup_insert_ne.
Qed.

Lemma Keys_elem (w : World) key :
  String.prefix "timer:" key = true → is_Some (cache w !! key) →
  key ∈ filter (λ k, String.prefix "timer:" k = true) (map_to_list (cache w)).*1.
Proof.
  intros Hp [v Hv]. apply list_elem_of_filter. split; [done|].
  apply list_elem_of_fmap. exists (key, v). split; [done|].
  by apply elem_of_map_to_list.
Qed.

(** X10.  Restore brings a row back to its snapshot: if the value under a
    ["timer:"] key is fetched and decodes to the timer [t], [t] carries an
    id (a primary key other than zero, so that [Save] writes the row of
    that id), the store takes the write, and no other snapshot carries
    the same id, then after [RestoreTimers] the row of [t.ID] is exactly
    [t], whatever it was before and whatever happens to the other keys. *)
Theorem restore_brings_back_snapshot (w : World) (key : string) (t : Timer) :
  redisKeysFails (faults w) = false →
  String.prefix "timer:" key = true →
  snapshot w key = Some t →
  ID t ≠ 0%N →
  updateFails (faults w) t = false →
  (∀ key' t', snapshot w key' = Some t' → ID t' = ID t → t' = t) →
  rows (Main.RestoreTimers w).2 !! ID t = Some (row_of t).
Proof.
  intros Hkeys Hp Hsnap _ Hup Huniq.
  unfold Main.RestoreTimers, Service.RestoreTimers, bind, Redis.Keys. rewrite Hkeys.
  set (keys := filter _ _).
  pose proof (for_range_restoreKey_spec keys (emit (RedisKeys "timer:" true) w))
    as (_ & _ & _ & Hr).
  destruct (for_range keys Service.restoreKey _) as [u w2]. cbn in *. rewrite Hr.
  assert (omap (snapshot (emit (RedisKeys "timer:" true) w)) keys
          = omap (snapshot w) keys) as -> by done.
  apply foldl_written_lookup; [|done|].
  - apply list_elem_of_omap. exists key. split; [|done].
    apply Keys_elem; [done|].
    unfold snapshot in Hsnap. destruct (redisGetFails _ _); [done|].
    by destruct (cache w !! key).
  - intros t' (key' & _ & Hs)%list_elem_of_omap. by apply (Huniq key').
Qed.

(** X11.  Timers of one session share one snapshot: after two successful
    [CreateTimer] calls with the same [sessionID] there are two rows, with
    different ids, and the cache holds under ["timer:" + sessionID] the
    snapshot of the second timer only. *)
Theorem same_session_shares_snapshot (w w1 w2 : World) (sessionID : string)
    (m1 m2 : Z) (ta tb : Timer) :
  Service.CreateTimer sessionID m1 w = (Ok ta, w1) →
  Service.CreateTimer sessionID m2 w1 = (Ok tb, w2) →
  redisSetFails (faults w) ("timer:" +:+ sessionID) = false →
  ID ta ≠ ID tb ∧
  rows w2 !! ID ta = Some (row_of ta) ∧
  rows w2 !! ID tb = Some (row_of tb) ∧
  cache w2 !! ("timer:" +:+ sessionID) = Some (JTimer tb).
Proof.
  intros H1 H2 Hset.
  assert (ta = mkTimer (nextID w) sessionID m1 m1 false ∧
          nextID w1 = N.succ (nextID w) ∧
          rows w1 = <[nextID w := mkRow sessionID m1 m1 false]> (rows w) ∧
          faults w1 = faults w) as (-> & Hn1 & Hr1 & Hf1).
  { revert H1. run_call; intros; by simplify_eq. }
  assert (tb = mkTimer (nextID w1) sessionID m2 m2 false ∧
          rows w2 = <[nextID w1 := mkRow sessionID m2 m2 false]> (rows w1) ∧
          cache w2 = (if redisSetFails (faults w1) ("timer:" +:+ sessionID)
                      then cache w1
                      else <["timer:" +:+ sessionID :=
                               JTimer (mkTimer (nextID w1) sessionID m2 m2 false)]>
                             (cache w1))) as (-> & Hr2 & Hc2).
  { revert H2. run_call; intros; simplify_eq; cbn in *;
      repeat split; first [done | congruence]. }
  rewrite Hf1, Hset in Hc2. cbn [ID row_of SessionID MaxTime CurrentTime IsPaused].
  rewrite Hr2, Hc2, Hr1, Hn1.
  assert (nextID w ≠ N.succ (nextID w)) as Hne by lia.
  split; [done|]. split; [|split].
  - rewrite lookup_insert_ne by done. apply lookup_insert_eq.
  - apply lookup_insert_eq.
  - apply lookup_insert_eq.
Qed.

Lemma restore_brings_back_snapshot_witness :
  let w := (ticks 2 Examples.created).2 in
  rows w !! 1%N = Some (mkRow "s1" 60 58 false) ∧
  snapshot w "timer:s1" = Some (mkTimer 1 "s1" 60 60 false) ∧
  rows (Main.RestoreTimers w).2 !! 1%N = Some (mkRow "s1" 60 60 false).
Proof.
  cbn zeta.
  assert (snapshot (ticks 2 Examples.created).2 "timer:s1"
          = Some (mkTimer 1 "s1" 60 60 false)) as Hs by (vm_compute; reflexivity).
  assert (ID (mkTimer 1 "s1" 60 60 false) ≠ 0%N) as Hid by (simpl; lia).
  split; [vm_compute; reflexivity|]. split; [exact Hs|].
  refine (restore_brings_back_snapshot (ticks 2 Examples.created).2 "timer:s1"
            (mkTimer 1 "s1" 60 60 false) eq_refl eq_refl Hs Hid eq_refl _).
  intros key' t' Hs' _. unfold snapshot in Hs'.
  destruct (redisGetFails _ _); [discriminate|].
  destruct (cache (ticks 2 Examples.created).2 !! key') as [v|] eqn:Hv; [|discriminate].
  apply elem_of_map_to_list in Hv.
  replace (map_to_list (cache (ticks 2 Examples.created).2))
    with [("timer:s1", JTimer (mkTimer 1 "s1" 60 60 false))] in Hv
    by (vm_compute; reflexivity).
  apply list_elem_of_singleton in Hv. injection Hv as -> ->.
  simpl in Hs'. congruence.
Defined.

Lemma same_session_shares_snapshot_witness :
  let w := Main.init no_faults in
  let r1 := Service.CreateTimer "s1" 60 w in
  let r2 := Service.CreateTimer "s1" 90 r1.2 in
  r1.1 = Ok (mkTimer 1 "s1" 60 60 false) ∧
  r2.1 = Ok (mkTimer 2 "s1" 90 90 false) ∧
  cache r2.2 !! "timer:s1" = Some (JTimer (mkTimer 2 "s1" 90 90 false)).
Proof.
  cbn zeta. split; [reflexivity|]. split; [reflexivity|].
  exact (proj2 (proj2 (proj2
    (same_session_shares_snapshot (Main.init no_faults) _ _ "s1" 60 90 _ _
       eq_refl eq_refl eq_refl)))).
Defined.

(** ** Sockets *)

#[local] Instance sockets_untouched_preorder : PreOrder sockets_untouched.
Proof.
  split.
  - intros w. by repeat split.
  - intros w1 w2 w3 (?&?&?) (?&?&?). repeat split; congruence.
Qed.

#[local] Instance registry_kept_preorder : PreOrder registry_kept.
Proof.
  split.
  - intros w. by repeat split.
  - intros w1 w2 w3 (?&?) (?&?). repeat split; congruence.
Qed.

Lemma sockets_untouched_registry_kept w w' :
  sockets_untouched w w' → registry_kept w w'.
Proof. intros (?&?&?). by split. Qed.

Lemma closed_app tr1 tr2 : closed (tr1 ++ tr2) = closed tr1 ++ closed tr2.
Proof. apply omap_app. Qed.

(** Closes [sockets_untouched w w'] when [w'] is [w] after store, cache and
    log steps. *)
Ltac quiet_step :=
  repeat split; cbn; rewrite ?writes_app, ?closed_app; cbn; by rewrite ?app_nil_r.

Lemma Main_timerService_quiet : quiet_service Main.timerService.
Proof.
  unfold quiet_service, Main.timerService, Service.NewTimerService. cbn.
  repeat split; intros; run_call; quiet_step.
Qed.

Lemma ServiceTimerGo_quiet : quiet_service ServiceTimerGo.NewTimerService.
Proof.
  unfold quiet_service, ServiceTimerGo.NewTimerService, ServiceTimerGo.CreateTimer,
    ServiceTimerGo.PauseTimer, ServiceTimerGo.ResumeTimer, ServiceTimerGo.ModifyTimer,
    ServiceTimerGo.StopTimer. cbn.
  repeat split; intros; run_call; quiet_step.
Qed.

Lemma logw_registry_kept lvl msg w : registry_kept w (logw lvl msg w).2.
Proof. split; cbn; [done|]. rewrite closed_app. cbn. by rewrite app_nil_r. Qed.

Lemma WriteJSON_registry_kept c m w : registry_kept w (Websocket.WriteJSON c m w).2.
Proof.
  unfold Websocket.WriteJSON. destruct (writeFails _ _); split; cbn; try done;
    rewrite closed_app; cbn; by rewrite app_nil_r.
Qed.

Lemma send_registry_kept c m w :
  registry_kept w
    (bind (Websocket.WriteJSON c m)
       (λ err, match err with
               | Some _ => logw LvlError "Failed to send WebSocket message"
               | None => ret tt
               end) w).2.
Proof.
  apply bind_frame; [apply _ | apply WriteJSON_registry_kept |].
  intros [e|] w1; [apply logw_registry_kept | reflexivity].
Qed.

Lemma broadcastMessage_registry_kept m s g w :
  registry_kept w (Websocket.broadcastMessage m s g w).2.
Proof.
  unfold Websocket.broadcastMessage.
  apply bind_frame; [apply _ | reflexivity |]. intros l w1.
  apply for_range_frame; [apply _ |].
  intros [k c] w0. destruct (g || bool_decide (k = s)); [|reflexivity].
  apply send_registry_kept.
Qed.

Lemma handlers_broadcastTimerUpdate_registry_kept t g w :
  registry_kept w (Handlers.broadcastTimerUpdate t g w).2.
Proof. apply broadcastMessage_registry_kept. Qed.

Lemma handlers_broadcastTimerStop_registry_kept id g w :
  registry_kept w (Handlers.broadcastTimerStop id g w).2.
Proof.
  unfold Handlers.broadcastTimerStop.
  apply bind_frame; [apply _ | reflexivity |]. intros l w1.
  apply for_range_frame; [apply _ |].
  intros [k c] w0. destruct g; [|reflexivity]. apply send_registry_kept.
Qed.

(** Serving one inbound message leaves the registry alone, for any service
    that does. *)
Lemma handleMessage_registry_kept s message sessionID isGameMaster w :
  quiet_service s →
  registry_kept w (Websocket.handleMessage s message sessionID isGameMaster w).2.
Proof.
  intros (Hc & Hp & Hr & Hs & Hm).
  unfold Websocket.handleMessage, Websocket.handleTimerCreate,
    Websocket.handleTimerPause, Websocket.handleTimerResume,
    Websocket.handleTimerStop, Websocket.handleTimerModify.
  destruct (Type_ message); try apply logw_registry_kept;
    destruct (Unmarshal_TimerRequest _) as [req|]; try apply logw_registry_kept;
    try (destruct (ParseUint _) as [id|]; [|apply logw_registry_kept]);
    (apply bind_frame;
      [apply _ | apply sockets_untouched_registry_kept; auto |]);
    intros res w1; destruct res;
    first [apply logw_registry_kept | apply broadcastMessage_registry_kept].
Qed.

Lemma handlers_handleMessage_registry_kept s message sessionID isGameMaster w :
  quiet_service s →
  registry_kept w (Handlers.handleMessage s message sessionID isGameMaster w).2.
Proof.
  intros (Hc & Hp & Hr & Hs & Hm). unfold Handlers.handleMessage.
  destruct (Type_ message); try reflexivity;
    (apply bind_frame;
      [apply _ | apply sockets_untouched_registry_kept; auto |]);
    intros res w1; destruct res;
    first [apply logw_registry_kept | apply handlers_broadcastTimerUpdate_registry_kept
          | apply handlers_broadcastTimerStop_registry_kept].
Qed.

(** X12.  A socket's slot is freed when the socket goes away: whatever
    messages it served, once [handleWebSocket] returns, the registry is the
    one it found minus the slot of its session identifier, and the socket
    has been closed exactly once; if the upgrade failed, nothing was
    registered or closed.  [handleConnection] of the older handler does the
    same. *)
Theorem connection_frees_its_slot (upgrade : Result Conn) (conn : Conn)
    (inbound : list WebSocketMessage) (frames : list (option WebSocketMessage))
    (sessionID : string) (isGameMaster : bool) (w : World) :
  let w' := (Websocket.handleWebSocket Main.timerService upgrade inbound sessionID
               isGameMaster w).2 in
  let w'' := (Handlers.handleConnection ServiceTimerGo.NewTimerService conn frames
                sessionID isGameMaster w).2 in
  match upgrade with
  | Ok c =>
      connections w' = delete sessionID (connections w) ∧
      closed (trace w') = closed (trace w) ++ [c]
  | Err _ => connections w' = connections w ∧ closed (trace w') = closed (trace w)
  end ∧
  connections w'' = delete sessionID (connections w) ∧
  closed (trace w'') = closed (trace w) ++ [conn].
Proof.
  cbn zeta. split.
  - destruct upgrade as [c|e]; [|by apply logw_registry_kept].
    unfold Websocket.handleWebSocket, bind.
    change (Websocket.register sessionID isGameMaster c w)
      with (tt, emit (Log LvlInfo "New WebSocket connection established")
                  (with_connections (insert sessionID c) w)).
    set (w1 := emit _ (with_connections _ w)).
    assert (connections w1 = <[sessionID := c]> (connections w)
            ∧ closed (trace w1) = closed (trace w)) as [Hc1 Hx1].
    { split; [done|]. unfold w1. cbn [trace emit with_connections].
      rewrite closed_app. cbn. by rewrite app_nil_r. }
    pose proof (for_range_frame registry_kept
                  (λ m, Websocket.handleMessage Main.timerService m sessionID isGameMaster)
                  inbound
                  (λ m w0, handleMessage_registry_kept _ m _ _ w0 Main_timerService_quiet)
                  w1) as [Hc2 Hx2].
    unfold Websocket.readLoop.
    destruct (for_range inbound _ w1) as [u2 w2]. cbn [snd] in *.
    unfold Websocket.closeConnection, bind, logw, modify.
    cbn [fst snd trace emit with_connections connections].
    rewrite !closed_app, Hc2, Hx2, Hc1, Hx1. cbn. rewrite app_nil_r.
    split; [apply delete_insert_eq | done].
  - unfold Handlers.handleConnection, bind.
    change (Handlers.register conn sessionID isGameMaster w)
      with (tt, with_connections (insert sessionID conn) w).
    set (w1 := with_connections _ w).
    assert (connections w1 = <[sessionID := conn]> (connections w)
            ∧ closed (trace w1) = closed (trace w)) as [Hc1 Hx1] by done.
    match goal with |- context [for_range frames ?body w1] =>
      assert (∀ x w0, registry_kept w0 (body x w0).2) as Hbody;
      [ intros [m|] w0;
        [apply handlers_handleMessage_registry_kept, ServiceTimerGo_quiet
        | apply logw_registry_kept]
      | pose proof (for_range_frame registry_kept body frames Hbody w1) as [Hc2 Hx2];
        destruct (for_range frames body w1) as [u2 w2] ]
    end.
    cbn [snd] in *. unfold Handlers.unregister, bind, logw, modify.
    cbn [fst snd trace emit with_connections connections].
    rewrite !closed_app, Hc2, Hx2, Hc1, Hx1. cbn. rewrite app_nil_r.
    split; [apply delete_insert_eq | done].
Qed.

(** ** Inbound validation *)

(** X13.  The push channel drops what it cannot use without calling the
    service: for a message of a type that is not a command, with a payload
    that does not decode, or (for pause, resume, stop and modify) whose
    [sessionId] is not the decimal text of a 64-bit number, [handleMessage]
    writes one log line and does nothing else, whatever service is plugged
    in.  A payload of the shape [{"id": n}] is among those dropped. *)
Theorem handleMessage_drops_rejected (s : Websocket.TimerServiceInterface)
    (message : WebSocketMessage) (sessionID : string) (isGameMaster : bool) (w : World) :
  (rejects message = true →
   ∃ lvl msg,
     Websocket.handleMessage s message sessionID isGameMaster w
       = (tt, emit (Log lvl msg) w)) ∧
  (∀ ty id, names_timer ty = true → rejects (mkMessage ty (JStopID id)) = true).
Proof.
  split.
  - unfold rejects, Websocket.handleMessage, Websocket.handleTimerCreate,
      Websocket.handleTimerPause, Websocket.handleTimerResume,
      Websocket.handleTimerStop, Websocket.handleTimerModify.
    destruct (Type_ message); try (intros _; by eexists _, _);
      destruct (Unmarshal_TimerRequest _) as [req|]; try (intros _; by eexists _, _);
      try done;
      destruct (ParseUint _); try done; intros _; by eexists _, _.
  - intros [] id; try done.
Qed.

Lemma handleMessage_drops_rejected_witness :
  rejects (mkMessage TypeTimerPause (JRequest "abc" 0)) = true ∧
  rows (Websocket.handleMessage Main.timerService
          (mkMessage TypeTimerPause (JRequest "abc" 0)) "s1" false Examples.world).2
    = rows Examples.world.
Proof.
  split; [reflexivity|].
  destruct (proj1 (handleMessage_drops_rejected Main.timerService
                     (mkMessage TypeTimerPause (JRequest "abc" 0)) "s1" false
                     Examples.world) eq_refl) as (lvl & msg & H).
  rewrite H. reflexivity.
Defined.

Lemma TimerHandler_StopTimer_ParseUint32 s idParam w :
  Handlers.TimerHandler.StopTimer s idParam w =
    match Handlers.TimerHandler.ParseUint32 idParam with
    | None =>
        (logw LvlError "Invalid timer ID" ;;;
         ret (400, Handlers.BodyText "Invalid timer ID")) w
    | Some id =>
        (err <- Websocket.StopTimer s id ;;
         match err with
         | Some _ =>
             logw LvlError "Failed to stop timer" ;;;
             ret (500, Handlers.BodyText "Failed to stop timer")
         | None => ret (200, Handlers.BodyMessage "Timer stopped and deleted")
         end) w
    end.
Proof.
  unfold Handlers.TimerHandler.StopTimer, Handlers.TimerHandler.ParseUint32.
  destruct (ParseUint idParam) as [id|]; [|done]. by destruct (id <? 2 ^ 32)%N.
Qed.

(** X14.  Over HTTP an unusable id is answered before anything else
    happens: when the path parameter is not the decimal text of a number
    below 2^32, pause, resume, stop and modify answer 400 "Invalid timer
    ID", write one log line, and neither call the service nor look at the
    request body. *)
Theorem http_rejects_bad_id (s : Websocket.TimerServiceInterface)
    (idParam : string) (body : Json) (w : World) :
  Handlers.TimerHandler.ParseUint32 idParam = None →
  let bad := ((400, Handlers.BodyText "Invalid timer ID"),
              emit (Log LvlError "Invalid timer ID") w) in
  Handlers.TimerHandler.PauseTimer s idParam w = bad ∧
  Handlers.TimerHandler.ResumeTimer s idParam w = bad ∧
  Handlers.TimerHandler.StopTimer s idParam w = bad ∧
  Handlers.TimerHandler.ModifyTimer s idParam body w = bad.
Proof.
  intros Hbad. cbn zeta. rewrite TimerHandler_StopTimer_ParseUint32.
  unfold Handlers.TimerHandler.PauseTimer, Handlers.TimerHandler.ResumeTimer,
    Handlers.TimerHandler.ModifyTimer.
  rewrite Hbad. by repeat split.
Qed.

Lemma http_rejects_bad_id_witness :
  Handlers.TimerHandler.ParseUint32 "4294967296" = None ∧
  (Handlers.TimerHandler.PauseTimer Main.timerService "4294967296" Examples.world).1
    = (400, Handlers.BodyText "Invalid timer ID").
Proof.
  split; [vm_compute; reflexivity|].
  destruct (http_rejects_bad_id Main.timerService "4294967296" (JMalformed "")
              Examples.world ltac:(vm_compute; reflexivity)) as (H & _).
  rewrite H. reflexivity.
Defined.

(** The decimal text of an id parses back to the id, within the width. *)
Lemma ParseUint_Sprint id :
  ParseUint (Sprint id) = if (id <? 2 ^ 64)%N then Some id else None.
Proof.
  unfold ParseUint, Sprint. rewrite NilZero.usu.
  - by rewrite DecimalN.Unsigned.of_to.
  - destruct id as [|p]; [done|]. apply DecimalPos.Unsigned.to_uint_nonnil.
Qed.

Lemma ParseUint32_Sprint id :
  Handlers.TimerHandler.ParseUint32 (Sprint id)
    = if (id <? 2 ^ 32)%N then Some id else None.
Proof.
  unfold Handlers.TimerHandler.ParseUint32. rewrite ParseUint_Sprint.
  destruct (id <? 2 ^ 64)%N eqn:H64; [done|].
  destruct (id <? 2 ^ 32)%N eqn:H32; [|done].
  apply N.ltb_lt in H32. apply N.ltb_ge in H64. lia.
Qed.

Lemma logw_sockets_untouched lvl msg w : sockets_untouched w (logw lvl msg w).2.
Proof. quiet_step. Qed.

(** X15.  The HTTP surface pushes nothing: whatever the request and
    whatever fails, the five endpoints of [TimerHandler], run on the wired
    service, write to no socket, close none and leave the registry as it
    was. *)
Theorem http_never_pushes (idParam : string) (body : Json) (w : World) :
  sockets_untouched w (Handlers.TimerHandler.CreateTimer Main.timerService body w).2 ∧
  sockets_untouched w (Handlers.TimerHandler.PauseTimer Main.timerService idParam w).2 ∧
  sockets_untouched w (Handlers.TimerHandler.ResumeTimer Main.timerService idParam w).2 ∧
  sockets_untouched w (Handlers.TimerHandler.StopTimer Main.timerService idParam w).2 ∧
  sockets_untouched w
    (Handlers.TimerHandler.ModifyTimer Main.timerService idParam body w).2.
Proof.
  destruct Main_timerService_quiet as (Hc & Hp & Hr & Hs & Hm).
  assert (∀ (A : Type) lvl msg (a : A) w0,
            sockets_untouched w0 ((logw lvl msg ;;; ret a) w0).2) as Hlog.
  { intros. apply bind_frame; [apply _ | apply logw_sockets_untouched |].
    intros; reflexivity. }
  rewrite TimerHandler_StopTimer_ParseUint32.
  unfold Handlers.TimerHandler.CreateTimer, Handlers.TimerHandler.PauseTimer,
    Handlers.TimerHandler.ResumeTimer, Handlers.TimerHandler.ModifyTimer.
  destruct (Handlers.TimerHandler.ParseUint32 idParam) as [id|];
    destruct (Unmarshal_TimerRequest body) as [req|];
    split_and!; try apply Hlog;
    (apply bind_frame; [apply _ | auto |]);
    intros res w1; destruct res; first [apply Hlog | reflexivity].
Qed.

(** X16.  Over HTTP an unknown timer is a 500: for an id below 2^32 that
    has no row, pause, resume and modify (with a body that decodes) answer
    500 with their own "Failed to ..." text, and the table is as it was. *)
Theorem http_unknown_timer_is_500 (id : N) (req : TimerRequest) (body : Json) (w : World) :
  (id < 2 ^ 32)%N →
  rows w !! id = None →
  Unmarshal_TimerRequest body = Some req →
  let pause := Handlers.TimerHandler.PauseTimer Main.timerService (Sprint id) w in
  let resume := Handlers.TimerHandler.ResumeTimer Main.timerService (Sprint id) w in
  let modify := Handlers.TimerHandler.ModifyTimer Main.timerService (Sprint id) body w in
  (pause.1 = (500, Handlers.BodyText "Failed to pause timer") ∧ rows pause.2 = rows w) ∧
  (resume.1 = (500, Handlers.BodyText "Failed to resume timer") ∧ rows resume.2 = rows w) ∧
  (modify.1 = (500, Handlers.BodyText "Failed to modify timer") ∧ rows modify.2 = rows w).
Proof.
  intros Hid Hr Hbody. cbn zeta.
  unfold Handlers.TimerHandler.PauseTimer, Handlers.TimerHandler.ResumeTimer,
    Handlers.TimerHandler.ModifyTimer.
  rewrite ParseUint32_Sprint, Hbody. apply N.ltb_lt in Hid. rewrite Hid.
  unfold Main.timerService, Service.NewTimerService. cbn.
  unfold Service.PauseTimer, Service.ResumeTimer, Service.ModifyTimer, bind,
    Repository.FindByID, logw, modify, ret.
  rewrite Hr. by destruct (findFails (faults w) id).
Qed.

Lemma http_unknown_timer_is_500_witness :
  (9 < 2 ^ 32)%N ∧ rows Examples.world !! 9%N = None ∧
  (Handlers.TimerHandler.PauseTimer Main.timerService "9" Examples.world).1
    = (500, Handlers.BodyText "Failed to pause timer").
Proof.
  assert (9 < 2 ^ 32)%N as Hid by (vm_compute; reflexivity).
  assert (rows Examples.world !! 9%N = None) as Hr by reflexivity.
  split; [exact Hid|]. split; [exact Hr|].
  exact (proj1 (proj1 (http_unknown_timer_is_500 9 (mkTimerRequest "" 5)
                         (JRequest "" 5) Examples.world Hid Hr eq_refl))).
Defined.

(** ** The loop *)

(** X17.  The tick loop returns only on the stop signal.  While the stop
    channel is open [StartTimerUpdates] never returns, whatever cases its
    [select] is offered; once the channel is closed it returns at the first
    stop case, having run exactly the ticks taken before it and none
    after. *)
Theorem loop_runs_until_stop (w : World) (cases rest : list SelectCase) (n : nat) :
  (stopChan w = ChanOpen → (Main.StartTimerUpdates cases w).1 = false) ∧
  (stopChan w = ChanClosed →
   Main.StartTimerUpdates (replicate n CaseTicker ++ CaseStop :: rest) w
     = (true, (ticks n w).2)).
Proof.
  split.
  - revert w. induction cases as [|[] cases IH]; intros w Hopen; [done| |].
    + cbn. unfold bind.
      pose proof (updateTimers_store_only w) as (_&_&Hs&_).
      fold Main.updateTimers.
      destruct (Main.updateTimers w) as [u w1]. cbn in Hs.
      apply IH. congruence.
    + cbn. unfold bind, ask. by rewrite Hopen.
  - revert w. induction n as [|n IH]; intros w Hclosed.
    + cbn. unfold bind, ask. by rewrite Hclosed.
    + rewrite ticks_S. cbn. unfold bind.
      pose proof (updateTimers_store_only w) as (_&_&Hs&_).
      fold Main.updateTimers.
      destruct (Main.updateTimers w) as [u w1]. cbn in Hs. cbn [snd].
      apply IH. congruence.
Qed.

Lemma loop_runs_until_stop_witness :
  stopChan Examples.world = ChanOpen ∧
  (Main.StartTimerUpdates [CaseTicker; CaseStop; CaseTicker] Examples.world).1 = false ∧
  stopChan Examples.stopped = ChanClosed ∧
  (Main.StartTimerUpdates [CaseTicker; CaseTicker; CaseStop; CaseTicker]
     Examples.stopped).1 = true.
Proof.
  split; [reflexivity|]. split.
  - exact (proj1 (loop_runs_until_stop Examples.world _ [] 0) eq_refl).
  - split; [reflexivity|].
    exact (f_equal fst
             (proj2 (loop_runs_until_stop Examples.stopped [] [CaseTicker] 2) eq_refl)).
Defined.

(** ** Best-effort delivery *)

Lemma delivered_app tr1 tr2 : delivered (tr1 ++ tr2) = delivered tr1 ++ delivered tr2.
Proof. apply omap_app. Qed.

Lemma logged_app lvl tr1 tr2 : logged lvl (tr1 ++ tr2) = logged lvl tr1 ++ logged lvl tr2.
Proof. apply omap_app. Qed.

Lemma send_loop_best_effort (m : WebSocketMessage) (P : string * Conn → bool)
    (l : list (string * Conn)) (w : World) :
  let w' := (for_range l (λ '(k, c),
               if P (k, c) then
                 err <- Websocket.WriteJSON c m ;;
                 match err with
                 | Some _ => logw LvlError "Failed to send WebSocket message"
                 | None => ret tt
                 end
               else ret tt) w).2 in
  let chosen := filter (λ kc, P kc = true) l in
  faults w' = faults w ∧
  delivered (trace w') = delivered (trace w) ++
    ((λ kc, (kc.2, m)) <$> filter (λ kc, writeFails (faults w) kc.2 = false) chosen) ∧
  length (logged LvlError (trace w')) = (length (logged LvlError (trace w)) +
    length (filter (λ kc, writeFails (faults w) kc.2 = true) chosen))%nat.
Proof.
  cbn zeta.
  match goal with |- context [for_range l ?b w] => remember b as body eqn:Hbody end.
  assert (∀ k c w0, body (k, c) w0 =
            if P (k, c) then
              if writeFails (faults w0) c
              then (tt, emit (Log LvlError "Failed to send WebSocket message")
                          (emit (SocketWrite c m false) w0))
              else (tt, emit (SocketWrite c m true) w0)
            else (tt, w0)) as Hstep.
  { intros k c w0. subst body. cbn. destruct (P (k, c)); [|done].
    unfold bind, Websocket.WriteJSON. by destruct (writeFails (faults w0) c). }
  clear Hbody. revert w. induction l as [|[k c] l IH]; intros w.
  { cbn. rewrite app_nil_r. split; [done|]. split; [done | lia]. }
  cbn [for_range]. unfold bind. rewrite Hstep, filter_cons.
  destruct (P (k, c)) eqn:HP.
  - rewrite decide_True by done. rewrite !filter_cons. cbn [snd].
    destruct (writeFails (faults w) c) eqn:Hwf.
    + rewrite decide_False by done. rewrite decide_True by done.
      match goal with |- context [for_range l body ?w0] =>
        destruct (IH w0) as (Hf & Hd & Hl) end.
      cbn [faults emit trace] in *. rewrite Hf, Hd, Hl.
      rewrite !delivered_app, !logged_app, !length_app. cbn.
      rewrite !app_nil_r. split; [done|]. split; [done | lia].
    + rewrite decide_True by done. rewrite decide_False by done.
      match goal with |- context [for_range l body ?w0] =>
        destruct (IH w0) as (Hf & Hd & Hl) end.
      cbn [faults emit trace] in *. rewrite Hf, Hd, Hl.
      rewrite !delivered_app, !logged_app, !length_app. cbn.
      rewrite <- !app_assoc. cbn. split; [done|]. split; [done | lia].
  - rewrite decide_False by done. apply IH.
Qed.

(** X18.  Delivery is best effort: a broadcast tries every slot it selects,
    in registry order; the sockets whose write goes through receive the
    message, each failed write costs one error log line, and a failure
    never keeps the later sockets from being written to. *)
Theorem broadcast_is_best_effort (m : WebSocketMessage) (sessionID : string)
    (isGameMaster : bool) (w : World) :
  let w' := (Websocket.broadcastMessage m sessionID isGameMaster w).2 in
  let chosen := selected sessionID isGameMaster w in
  writes (trace w') = writes (trace w) ++ ((λ kc, (kc.2, m)) <$> chosen) ∧
  delivered (trace w') = delivered (trace w) ++
    ((λ kc, (kc.2, m)) <$> filter (λ kc, writeFails (faults w) kc.2 = false) chosen) ∧
  length (logged LvlError (trace w')) = (length (logged LvlError (trace w)) +
    length (filter (λ kc, writeFails (faults w) kc.2 = true) chosen))%nat.
Proof.
  cbn zeta. split; [apply broadcastMessage_writes|].
  unfold Websocket.broadcastMessage, bind, ask, selected.
  pose proof (send_loop_best_effort m
                (λ kc, isGameMaster || bool_decide (kc.1 = sessionID))
                (map_to_list (connections w)) w) as (_ & Hd & Hl).
  cbn zeta in Hd, Hl. split; [exact Hd | exact Hl].
Qed.

(** ** Restore and the rest of the world *)

#[local] Instance table_only_preorder : PreOrder table_only.
Proof.
  split.
  - intros w. by repeat split.
  - intros w1 w2 w3 (?&?&?&?) (?&?&?&?).
    split; [by etrans|]. split; [by etrans|]. split; congruence.
Qed.

Lemma cache_writes_app tr1 tr2 :
  cache_writes (tr1 ++ tr2) = cache_writes tr1 ++ cache_writes tr2.
Proof. apply omap_app. Qed.

Lemma cache_deletes_app tr1 tr2 :
  cache_deletes (tr1 ++ tr2) = cache_deletes tr1 ++ cache_deletes tr2.
Proof. apply omap_app. Qed.

(** Normalises what the filters over a trace see of appended events. *)
Ltac trace_facts :=
  unfold writes, closed, cache_writes, cache_deletes;
  cbn; rewrite ?omap_app; cbn; rewrite ?app_nil_r.

Lemma restoreKey_table_only key w : table_only w (Service.restoreKey key w).2.
Proof.
  pose proof (restoreKey_spec key w) as (Hso & _). split; [exact Hso|]. clear Hso.
  unfold Service.restoreKey, bind, Redis.Get, Repository.Update, logw, modify, ret.
  repeat case_match; simplify_eq; repeat split; trace_facts; done.
Qed.

(** X19.  Restore only ever writes the table: [RestoreTimers] reads the
    cache without writing or deleting a key, touches no socket (what it
    restores is not broadcast), and when the key listing fails it returns
    that error having changed nothing. *)
Theorem restore_writes_only_the_table (w : World) :
  table_only w (Main.RestoreTimers w).2 ∧
  (Main.RestoreTimers w).1
    = (if redisKeysFails (faults w) then Some ErrRedis else None) ∧
  (if redisKeysFails (faults w) then rows (Main.RestoreTimers w).2 = rows w else True).
Proof.
  unfold Main.RestoreTimers, Service.RestoreTimers, bind, Redis.Keys.
  destruct (redisKeysFails (faults w)).
  - repeat split; trace_facts; try done. by apply prefix_app_r.
  - set (keys := filter _ _). set (w1 := emit _ w).
    assert (table_only w w1) as H1.
    { unfold w1. repeat split; trace_facts; try done. by apply prefix_app_r. }
    pose proof (for_range_frame table_only Service.restoreKey keys
                  restoreKey_table_only w1) as H2.
    destruct (for_range keys Service.restoreKey w1) as [u w2]. cbn in *.
    split; [by etrans | done].
Qed.

(** ** Countdown from a command *)

Lemma exec_Modify_row w id r newMaxTime :
  rows w !! id = Some r → reliable_store (faults w) →
  rows (Main.exec (Main.Modify id newMaxTime) w).2 !! id
    = Some (mkRow (row_SessionID r) newMaxTime newMaxTime (row_IsPaused r)).
Proof.
  intros Hr (_ & Hup & Hfind). cbn.
  unfold Main.timerService, Service.NewTimerService, bind. cbn.
  unfold Service.ModifyTimer, bind, Repository.FindByID, Repository.Update.
  rewrite Hfind, Hr. cbn. rewrite Hup. run_call; apply lookup_insert_eq.
Qed.

(** X20.  Modify restarts the countdown from the new value: with a store
    that works, modifying a running timer to [newMaxTime ≥ 0] and ticking
    [n] times leaves its row with [maxTime = newMaxTime] and
    [currentTime = max 0 (newMaxTime - n)], whatever the counter was
    before; a paused timer stays paused at [newMaxTime]. *)
Theorem modify_restarts_countdown (w : World) (id : N) (r : TimerRow)
    (newMaxTime : Z) (n : nat) :
  rows w !! id = Some r →
  0 ≤ newMaxTime → is_int64 newMaxTime →
  reliable_store (faults w) →
  rows (Main.run (Main.Modify id newMaxTime :: replicate n Main.Tick) w).2 !! id
    = Some (mkRow (row_SessionID r) newMaxTime
                  (if row_IsPaused r then newMaxTime
                   else Z.max 0 (newMaxTime - Z.of_nat n))
                  (row_IsPaused r)).
Proof.
  intros Hr Hm Hi Hrel.
  change (Main.Modify id newMaxTime :: replicate n Main.Tick)
    with ([Main.Modify id newMaxTime] ++ replicate n Main.Tick).
  unfold Main.run. rewrite for_range_app.
  fold (Main.run [Main.Modify id newMaxTime] w). rewrite run_singleton. cbn [snd].
  set (w1 := (Main.exec (Main.Modify id newMaxTime) w).2).
  assert (faults w1 = faults w) as Hf1
    by (by destruct (exec_steady (Main.Modify id newMaxTime) w) as (_&_&?&_)).
  pose proof (exec_Modify_row w id r newMaxTime Hr Hrel) as Hr1. fold w1 in Hr1.
  fold (Main.run (replicate n Main.Tick) w1). fold (ticks n w1).
  destruct Hrel as (Hga & Hup & _).
  destruct (row_IsPaused r) eqn:Hp.
  - by apply ticks_row_idle; [|left].
  - rewrite (ticks_row_running w1 id _ n Hr1); cbn; try done.
    + by rewrite Hf1.
    + intros t _. by rewrite Hf1.
Qed.

Lemma modify_restarts_countdown_witness :
  rows Examples.world !! 2%N = Some (mkRow "s2" 10 0 false) ∧
  rows (Main.run (Main.Modify 2 90 :: replicate 4 Main.Tick) Examples.world).2 !! 2%N
    = Some (mkRow "s2" 90 86 false).
Proof.
  assert (rows Examples.world !! 2%N = Some (mkRow "s2" 10 0 false)) as Hr
    by reflexivity.
  split; [exact Hr|].
  exact (modify_restarts_countdown Examples.world 2 _ 90 4 Hr ltac:(lia)
           ltac:(unfold is_int64, min_int64, max_int64; lia)
           ltac:(by repeat split)).
Defined.

(** X21.  A new timer starts full and counts down: with a store that works,
    [CreateTimer sessionID maxTime] with [maxTime ≥ 0] followed by [n]
    ticks leaves the row of the new timer, whose id is the one handed
    back, with [currentTime = max 0 (maxTime - n)], not paused. *)
Theorem create_then_ticks (w w1 : World) (sessionID : string) (maxTime : Z)
    (timer : Timer) (n : nat) :
  Service.CreateTimer sessionID maxTime w = (Ok timer, w1) →
  0 ≤ maxTime → is_int64 maxTime →
  reliable_store (faults w) →
  rows (ticks n w1).2 !! ID timer
    = Some (mkRow sessionID maxTime (Z.max 0 (maxTime - Z.of_nat n)) false).
Proof.
  intros Hcreate Hm Hi (Hga & Hup & _).
  assert (rows w1 !! ID timer = Some (mkRow sessionID maxTime maxTime false)
          ∧ faults w1 = faults w) as [Hr1 Hf1].
  { revert Hcreate. run_call; intros; simplify_eq; cbn;
      (split; [apply lookup_insert_eq | done]). }
  rewrite (ticks_row_running w1 (ID timer) _ n Hr1); cbn; try done.
  - by rewrite Hf1.
  - intros t _. by rewrite Hf1.
Qed.

Lemma create_then_ticks_witness :
  (Service.CreateTimer "s1" 60 (Main.init no_faults)).1
    = Ok (mkTimer 1 "s1" 60 60 false) ∧
  rows (ticks 5 Examples.created).2 !! 1%N = Some (mkRow "s1" 60 55 false).
Proof.
  split; [reflexivity|].
  exact (create_then_ticks (Main.init no_faults) Examples.created "s1" 60
           (mkTimer 1 "s1" 60 60 false) 5 eq_refl ltac:(lia)
           ltac:(unfold is_int64, min_int64, max_int64; lia)
           ltac:(by repeat split)).
Defined.
